(** * A shallow embedding of [src/lib/oidc-client.js]

    The relying-party client of the OpenID Connect implicit flow: the
    authorization request builder ([createTokenRequestAsync]), the response
    processor ([processResponseAsync]), the identity-token and access-token
    validators ([validateIdTokenAsync], [validateAccessTokenAsync]) and the
    signing-key and metadata loaders.

    Conventions of the model.
    - JavaScript values that come from [JSON.parse] (the request state, the
      identity-token payload, the provider metadata, the key set, the
      userinfo response) are [jvalue]s; [undefined] is [None] of an
      [option jvalue].  Numbers are kept as exact rationals [Q].
    - Strings are Rocq [string]s read as UTF-8 byte sequences.
    - The guards [if (x)] and [if (!x)] of the code are JavaScript truthiness
      ([truthy]).  The spec calls a value passing such a guard "present" or
      "non-empty" and one failing it "absent" or "missing"; the theorems
      below read these words that way.
    - Promise chains are sequential: a computation is a state-and-error
      monad [M].  A rejected promise and a thrown exception are both
      [Throw]; the error kind ([Error message], [SyntaxError], [TypeError])
      is kept. *)

From Stdlib Require Import String Ascii QArith ZArith List Bool.
From stdpp Require Import base gmap strings list.

Open Scope string_scope.
Set Warnings "-register-all".

(** ** JavaScript values *)

Inductive jvalue : Type :=
| JNull
| JBool (b : bool)
| JNum (q : Q)
| JStr (s : string)
| JArr (xs : list jvalue)
| JObj (kvs : list (string * jvalue)).

(** Own-property lookup on an object.  As with [JSON.parse], a key bound
    twice has its last value. *)
Fixpoint obj_get (kvs : list (string * jvalue)) (k : string) : option jvalue :=
  match kvs with
  | [] => None
  | (k', v) :: r =>
      match obj_get r k with
      | Some w => Some w
      | None => if String.eqb k k' then Some v else None
      end
  end.

(** [obj[k] = v]: an existing key keeps its position, a new one is appended. *)
Definition obj_set (kvs : list (string * jvalue)) (k : string) (v : jvalue)
  : list (string * jvalue) :=
  if existsb (fun kv => String.eqb k (fst kv)) kvs
  then map (fun kv => if String.eqb k (fst kv) then (fst kv, v) else kv) kvs
  else (kvs ++ [(k, v)])%list.

(** [delete obj[k]]. *)
Definition obj_delete (kvs : list (string * jvalue)) (k : string)
  : list (string * jvalue) :=
  List.filter (fun kv => negb (String.eqb k (fst kv))) kvs.

Definition is_digit (c : ascii) : bool :=
  (48 <=? nat_of_ascii c)%nat && (nat_of_ascii c <=? 57)%nat.

Fixpoint digits_value (s : string) (acc : nat) : option nat :=
  match s with
  | EmptyString => Some acc
  | String c r =>
      if is_digit c then digits_value r (10 * acc + (nat_of_ascii c - 48))
      else None
  end.

(** A canonical array index: ["0"] or a decimal numeral without a leading
    zero. *)
Definition array_index (k : string) : option nat :=
  match k with
  | String c EmptyString => if is_digit c then Some (nat_of_ascii c - 48) else None
  | String c _ =>
      if Nat.eqb (nat_of_ascii c) 48 then None else digits_value k 0
  | EmptyString => None
  end.

(** [v[k]] for a value that is neither [null] nor [undefined].  Arrays and
    strings have [length] and index properties (a string's length counted
    in bytes); numbers and booleans have none of the keys the client
    reads. *)
Definition prop (v : jvalue) (k : string) : option jvalue :=
  match v with
  | JObj kvs => obj_get kvs k
  | JArr xs =>
      if String.eqb k "length" then Some (JNum (inject_Z (Z.of_nat (length xs))))
      else match array_index k with Some i => nth_error xs i | None => None end
  | JStr s =>
      if String.eqb k "length" then Some (JNum (inject_Z (Z.of_nat (String.length s))))
      else match array_index k with
           | Some i => match String.get i s with
                       | Some c => Some (JStr (String c EmptyString))
                       | None => None
                       end
           | None => None
           end
  | _ => None
  end.

(** JavaScript truthiness ([undefined] is [None]). *)
Definition truthy (v : option jvalue) : bool :=
  match v with
  | None | Some JNull => false
  | Some (JBool b) => b
  | Some (JNum q) => negb (Qeq_bool q 0)
  | Some (JStr s) => negb (String.eqb s "")
  | Some (JArr _) | Some (JObj _) => true
  end.

Definition truthy_str (s : option string) : bool := truthy (JStr <$> s).

(** [a === b].  Arrays and objects compared here always come from
    different [JSON.parse] calls, so they are different references. *)
Definition strict_eq (a b : option jvalue) : bool :=
  match a, b with
  | None, None => true
  | Some JNull, Some JNull => true
  | Some (JBool x), Some (JBool y) => Bool.eqb x y
  | Some (JNum x), Some (JNum y) => Qeq_bool x y
  | Some (JStr x), Some (JStr y) => String.eqb x y
  | _, _ => false
  end.

(** ** Errors and the monad *)

Inductive js_error : Type :=
| Error (message : string)
| SyntaxError
| TypeError.

Inductive outcome (A : Type) : Type :=
| Ok (a : A)
| Throw (e : js_error).
Arguments Ok {A} a.
Arguments Throw {A} e.

(** The mutable state the client reads and writes: the request-state store,
    the metadata and key set cached on [settings], the number of random
    values drawn so far and the clock. *)
Record state : Type := mkState {
  store : gmap string string;
  metadata : option jvalue;
  jwks : option jvalue;
  rand_count : nat;
  clock_ms : Z
}.

Definition M (A : Type) : Type := state -> outcome A * state.

Global Instance M_ret : MRet M := fun A a s => (Ok a, s).
Global Instance M_bind : MBind M := fun A B k m s =>
  match m s with
  | (Ok a, s') => k a s'
  | (Throw e, s') => (Throw e, s')
  end.

Definition throw {A} (e : js_error) : M A := fun s => (Throw e, s).

(** [p.then(onFulfilled, onRejected)]. *)
Definition then2 {A B} (m : M A) (k : A -> M B) (h : js_error -> M B) : M B :=
  fun s => match m s with
           | (Ok a, s') => k a s'
           | (Throw e, s') => h e s'
           end.

(** [p.catch(onRejected)]. *)
Definition catch {A} (m : M A) (h : js_error -> M A) : M A := then2 m mret h.

(** [obj[k]] on a value that may be [null] or [undefined]. *)
Definition getp (v : option jvalue) (k : string) : M (option jvalue) :=
  match v with
  | None | Some JNull => throw TypeError
  | Some v' => mret (prop v' k)
  end.

(** ** Strings *)

Definition byte_is (c : ascii) (n : nat) : bool := Nat.eqb (nat_of_ascii c) n.

(** The character classes of [\s] in a JavaScript regular expression, as
    UTF-8: the ASCII blanks and line ends, U+00A0, U+1680, U+2000 to
    U+200A, U+2028, U+2029, U+202F, U+205F, U+3000 and U+FEFF.  Returns the
    rest of the string after one such character. *)
Definition ws_prefix (s : string) : option string :=
  match s with
  | String c r =>
      if byte_is c 9 || byte_is c 10 || byte_is c 11 || byte_is c 12
         || byte_is c 13 || byte_is c 32 then Some r
      else match r with
      | String d r1 =>
          if byte_is c 194 && byte_is d 160 then Some r1
          else match r1 with
          | String e r2 =>
              if (byte_is c 225 && byte_is d 154 && byte_is e 128)
                 || (byte_is c 226 && byte_is d 128
                     && (((128 <=? nat_of_ascii e) && (nat_of_ascii e <=? 138))%nat
                         || byte_is e 168 || byte_is e 169 || byte_is e 175))
                 || (byte_is c 226 && byte_is d 129 && byte_is e 159)
                 || (byte_is c 227 && byte_is d 128 && byte_is e 128)
                 || (byte_is c 239 && byte_is d 187 && byte_is e 191)
              then Some r2 else None
          | EmptyString => None
          end
      | EmptyString => None
      end
  | EmptyString => None
  end.

Fixpoint skip_ws (fuel : nat) (s : string) : string :=
  match fuel with
  | O => s
  | S f => match ws_prefix s with Some r => skip_ws f r | None => s end
  end.

Fixpoint split_go (fuel : nat) (s cur : string) : list string :=
  match fuel with
  | O => [cur ++ s]
  | S f =>
      match s with
      | EmptyString => [cur]
      | String c r =>
          match ws_prefix s with
          | Some r' => cur :: split_go f (skip_ws f r') ""
          | None => split_go f r (cur ++ String c EmptyString)
          end
      end
  end.

(** [s.split(/\s+/g)]: the pieces between maximal runs of white space
    (a leading or trailing run gives an empty piece, [""] gives [[""]]). *)
Definition split_ws (s : string) : list string :=
  split_go (S (String.length s)) s "".

(** [s.toLowerCase()] on the ASCII letters; no other character lowers to an
    ASCII letter of ["bearer"], the only string it is compared with. *)
Definition ascii_lower (c : ascii) : ascii :=
  if ((65 <=? nat_of_ascii c) && (nat_of_ascii c <=? 90))%nat
  then ascii_of_nat (nat_of_ascii c + 32) else c.

Fixpoint to_lower (s : string) : string :=
  match s with
  | EmptyString => EmptyString
  | String c r => String (ascii_lower c) (to_lower r)
  end.

Definition hex_upper : string := "0123456789ABCDEF".
Definition hex_lower : string := "0123456789abcdef".

Definition hex_char (digits : string) (n : nat) : ascii :=
  match String.get n digits with Some c => c | None => "0"%char end.

(** The characters [encodeURIComponent] leaves as they are. *)
Definition uri_unreserved (c : ascii) : bool :=
  let n := nat_of_ascii c in
  ((65 <=? n) && (n <=? 90))%nat || ((97 <=? n) && (n <=? 122))%nat
  || ((48 <=? n) && (n <=? 57))%nat
  || byte_is c 45 || byte_is c 95 || byte_is c 46 || byte_is c 33
  || byte_is c 126 || byte_is c 42 || byte_is c 39 || byte_is c 40
  || byte_is c 41.

(** [encodeURIComponent]: every other UTF-8 byte becomes [%XY]. *)
Fixpoint encodeURIComponent (s : string) : string :=
  match s with
  | EmptyString => EmptyString
  | String c r =>
      if uri_unreserved c then String c (encodeURIComponent r)
      else String "%" (String (hex_char hex_upper (nat_of_ascii c / 16))
                 (String (hex_char hex_upper (nat_of_ascii c mod 16))
                    (encodeURIComponent r)))
  end.

Definition last_char (s : string) : option ascii :=
  String.get (String.length s - 1) s.

(** ** Bytes and hexadecimal *)

Definition byte_to_hex (b : Byte.byte) : string :=
  String (hex_char hex_lower (Byte.to_nat b / 16))
    (String (hex_char hex_lower (Byte.to_nat b mod 16)) EmptyString).

(** jsrsasign renders a digest as lower-case hexadecimal. *)
Fixpoint bytes_to_hex (bs : list Byte.byte) : string :=
  match bs with
  | [] => EmptyString
  | b :: r => byte_to_hex b ++ bytes_to_hex r
  end.

Definition hex_value (c : ascii) : nat :=
  let n := nat_of_ascii c in
  if ((48 <=? n) && (n <=? 57))%nat then n - 48
  else if ((97 <=? n) && (n <=? 102))%nat then n - 87
  else if ((65 <=? n) && (n <=? 70))%nat then n - 55
  else 0.

(** The bytes a hexadecimal string denotes, two digits a byte. *)
Fixpoint hex_to_bytes (h : string) : list Byte.byte :=
  match h with
  | String c1 (String c2 r) =>
      match Byte.of_nat (16 * hex_value c1 + hex_value c2) with
      | Some b => b :: hex_to_bytes r
      | None => hex_to_bytes r
      end
  | _ => []
  end.

(** ** The runtime and the libraries the client calls

    [JSON.parse] ([None] when it throws a [SyntaxError]), [JSON.stringify],
    the number-string conversions of the language, jsrsasign's signature
    check, SHA-256 and base64url, the HTTP fetch behind [utility.getJson]
    and the random source behind [utility.rand]. *)
Record runtime : Type := {
  JSON_parse : string -> option jvalue;
  JSON_stringify : jvalue -> string;
  number_to_string : Q -> string;
  string_to_number : string -> option Q;
  verifyJWSByPemX509Cert : string -> option jvalue -> bool;
  payloadS : string -> string;
  sha256_bytes : string -> list Byte.byte;
  sha256_length : forall s, length (sha256_bytes s) = 32%nat;
  b64u_encode : list Byte.byte -> string;
  fetch_json : string -> option string -> string + jvalue;
  random_string : nat -> string
}.

Section Runtime.
Variable rt : runtime.

(** [String(v)]: arrays join their elements with commas ([null] gives the
    empty string), objects give ["[object Object]"]. *)
Fixpoint js_to_string (v : jvalue) : string :=
  match v with
  | JNull => "null"
  | JBool true => "true"
  | JBool false => "false"
  | JNum q => number_to_string rt q
  | JStr s => s
  | JArr xs =>
      (fix join (xs : list jvalue) : string :=
         match xs with
         | [] => ""
         | x :: r =>
             let sx := match x with JNull => "" | _ => js_to_string x end in
             match r with [] => sx | _ => sx ++ "," ++ join r end
         end) xs
  | JObj _ => "[object Object]"
  end.

(** [Number(v)], [None] standing for [NaN]. *)
Definition to_number (v : option jvalue) : option Q :=
  match v with
  | None => None
  | Some JNull => Some 0%Q
  | Some (JBool b) => Some (if b then 1%Q else 0%Q)
  | Some (JNum q) => Some q
  | Some (JStr s) => string_to_number rt s
  | Some v' => string_to_number rt (js_to_string v')
  end.

(** [JSON.parse(s)]. *)
Definition json_parse (s : string) : M jvalue :=
  match JSON_parse rt s with
  | Some v => mret v
  | None => throw SyntaxError
  end.

(** [r.crypto.Util.sha256(s)]: the digest as a hexadecimal string. *)
Definition sha256 (s : string) : string := bytes_to_hex (sha256_bytes rt s).

(** [r.hextob64u(h)]. *)
Definition hextob64u (h : string) : string := b64u_encode rt (hex_to_bytes h).

(** Modelled from the spec: [utility.getJson] (utility.js is not in src/),
    the fetchJson capability of the spec's external interfaces: a URL and
    an optional bearer token give the parsed JSON body, or a transport error
    carrying its message. *)
Definition getJson (url : string) (access_token : option string) : M jvalue :=
  fun s => match fetch_json rt url access_token with
           | inl message => (Throw (Error message), s)
           | inr v => (Ok v, s)
           end.

(** Modelled from the spec: [utility.rand] (utility.js is not in src/), a
    fresh random string per call: the n-th call returns the n-th value of
    the random source. *)
Definition rand : M string :=
  fun s => (Ok (random_string rt (rand_count s)),
            mkState (store s) (metadata s) (jwks s) (S (rand_count s)) (clock_ms s)).

End Runtime.

(** Modelled from the spec: [utility.error(promise, message)] (utility.js
    is not in src/): the call fails with the named failure [Error(message)].
    The module's own [error] wrapper calls it without returning its value,
    so a failure reaches the caller only because [utility.error] raises
    it. *)
Definition utility_error {A} (message : string) : M A := throw (Error message).

(** [function error(message) { utility.error(promise, message); }] *)
Definition error {A} (message : string) : M A := utility_error message.

(** Modelled from the spec: [utility.copy(obj, target)] (utility.js is not
    in src/).  The spec's profile merge: the own properties of [obj] are
    written over a copy of [target] (a new object when [target] is absent),
    so [obj]'s values win on a shared key. *)
Definition utility_copy (obj : jvalue) (target : option jvalue) : jvalue :=
  let base := match target with Some (JObj kvs) => kvs | _ => [] end in
  match obj with
  | JObj kvs => JObj (fold_left (fun acc kv => obj_set acc (fst kv) (snd kv)) kvs base)
  | _ => JObj base
  end.

(** ** Settings and the constructor *)

(** The fields of [self._settings] the client reads; [None] is
    [undefined].  The cached [metadata] and [jwks] live in [state]. *)
Record settings : Type := mkSettings {
  request_state_key : option string;
  load_user_profile : option bool;
  filter_protocol_claims : option bool;
  authority : option string;
  authorization_endpoint : option string;
  response_type : option string;
  client_id : option string;
  redirect_uri : option string;
  scope : option string;
  prompt : option string;
  display : option string;
  max_age : option string;
  ui_locales : option string;
  id_token_hint : option string;
  login_hint : option string;
  acr_values : option string;
  response_mode : option string
}.

Definition well_known : string := ".well-known/openid-configuration".

(** The authority rewrite of the constructor. *)
Definition normalize_authority (a : option string) : option string :=
  match a with
  | Some au =>
      if truthy_str a && match String.index 0 well_known au with None => true | Some _ => false end then
        let au' := if (match last_char au with
                       | Some c => Ascii.eqb c "/"%char
                       | None => false
                       end) then au else au ++ "/" in
        Some (au' ++ well_known)
      else a
  | None => None
  end.

(** [function OidcClient(req, res, serverSettings)]: the defaults it fills
    in on its copy of the settings. *)
Definition OidcClient (server : settings) : settings :=
  mkSettings
    (if truthy_str (request_state_key server) then request_state_key server
     else Some "OidcClient.request_state")
    (match load_user_profile server with None => Some true | v => v end)
    (match filter_protocol_claims server with None => Some true | v => v end)
    (normalize_authority (authority server))
    (authorization_endpoint server)
    (if truthy_str (response_type server) then response_type server
     else Some "id_token token")
    (client_id server) (redirect_uri server) (scope server) (prompt server)
    (display server) (max_age server) (ui_locales server)
    (id_token_hint server) (login_hint server) (acr_values server)
    (response_mode server).

Definition flag (b : option bool) : bool := truthy (JBool <$> b).

(** [isOidc]: some piece of [response_type.split(/\s+/g)] is ["id_token"]. *)
Definition isOidc (cfg : settings) : bool :=
  match response_type cfg with
  | Some rt_ =>
      if truthy_str (Some rt_) then
        truthy_str (List.hd_error (List.filter (fun item => String.eqb item "id_token") (split_ws rt_)))
      else false
  | None => false
  end.

(** [isOauth]: some piece of [response_type.split(/\s+/g)] is ["token"]. *)
Definition isOauth (cfg : settings) : bool :=
  match response_type cfg with
  | Some rt_ =>
      if truthy_str (Some rt_) then
        truthy_str (List.hd_error (List.filter (fun item => String.eqb item "token") (split_ws rt_)))
      else false
  | None => false
  end.

(** The store is indexed like a JavaScript object: an [undefined] key is the
    string ["undefined"]. *)
Definition store_key (cfg : settings) : string :=
  match request_state_key cfg with Some k => k | None => "undefined" end.

(** ** State access *)

Definition read_metadata : M (option jvalue) := fun s => (Ok (metadata s), s).
Definition read_jwks : M (option jvalue) := fun s => (Ok (jwks s), s).

(** [settings.metadata = metadata]. *)
Definition write_metadata (md : jvalue) : M unit :=
  fun s => (Ok tt, mkState (store s) (Some md) (jwks s) (rand_count s) (clock_ms s)).

(** [settings.jwks = jwks]. *)
Definition write_jwks (jw : jvalue) : M unit :=
  fun s => (Ok tt, mkState (store s) (metadata s) (Some jw) (rand_count s) (clock_ms s)).

(** [request_state_store.get(key)]. *)
Definition store_get (k : string) : M (option string) := fun s => (Ok (store s !! k), s).

(** [request_state_store.set(key, value)]; with no value the entry is
    cleared, the contract of the spec's request-state store. *)
Definition store_set (k : string) (v : option string) : M unit :=
  fun s => (Ok tt,
            mkState (match v with
                     | Some x => <[k := x]> (store s)
                     | None => delete k (store s)
                     end) (metadata s) (jwks s) (rand_count s) (clock_ms s)).

(** [Math.round(Date.now() / 1000)]. *)
Definition now_seconds : M Z := fun s => (Ok ((clock_ms s + 500) / 1000)%Z, s).

(** [err.message] of an error a fetch rejects with. *)
Definition js_message (e : js_error) : string :=
  match e with
  | Error m => m
  | SyntaxError => "SyntaxError"
  | TypeError => "TypeError"
  end.

Section Client.
Variable rt : runtime.
Variable cfg : settings.

(** ** Metadata and signing key *)

Definition fetch_metadata : M jvalue :=
  match authority cfg with
  | Some au =>
      if truthy_str (Some au) then
        catch (md ← getJson rt au None; _ ← write_metadata md; mret md)
              (fun err => error ("Failed to load metadata (" ++ js_message err ++ ")"))
      else error "No authority configured"
  | None => error "No authority configured"
  end.

(** [loadMetadataAsync]. *)
Definition loadMetadataAsync : M jvalue :=
  cached ← read_metadata;
  match cached with
  | Some md => if truthy (Some md) then mret md else fetch_metadata
  | None => fetch_metadata
  end.

(** [getKeyAsync(jwks)] inside [loadX509SigningKeyAsync]: only the first
    key of the set is looked at. *)
Definition getKeyAsync (jw : jvalue) : M (option jvalue) :=
  keys ← getp (Some jw) "keys";
  keys_length ← (if truthy keys then getp keys "length" else mret None);
  if negb (truthy keys) || negb (truthy keys_length) then error "Signing keys empty" else
  key ← getp keys "0";
  kty ← getp key "kty";
  if negb (strict_eq kty (Some (JStr "RSA"))) then error "Signing key not RSA" else
  x5c ← getp key "x5c";
  x5c_length ← (if truthy x5c then getp x5c "length" else mret None);
  if negb (truthy x5c) || negb (truthy x5c_length) then error "RSA keys empty" else
  getp x5c "0".

Definition fetch_signing_key : M (option jvalue) :=
  md ← loadMetadataAsync;
  jwks_uri ← getp (Some md) "jwks_uri";
  match jwks_uri with
  | Some u =>
      if truthy jwks_uri then
        then2 (getJson rt (js_to_string rt u) None)
              (fun jw => _ ← write_jwks jw; getKeyAsync jw)
              (fun err => error ("Failed to load signing keys (" ++ js_message err ++ ")"))
      else error "Metadata does not contain jwks_uri"
  | None => error "Metadata does not contain jwks_uri"
  end.

(** [loadX509SigningKeyAsync]. *)
Definition loadX509SigningKeyAsync : M (option jvalue) :=
  cached ← read_jwks;
  match cached with
  | Some jw => if truthy (Some jw) then getKeyAsync jw else fetch_signing_key
  | None => fetch_signing_key
  end.

(** [loadUserProfile(access_token)]. *)
Definition loadUserProfile (access_token : string) : M jvalue :=
  md ← loadMetadataAsync;
  userinfo ← getp (Some md) "userinfo_endpoint";
  match userinfo with
  | Some u =>
      if truthy userinfo then getJson rt (js_to_string rt u) (Some access_token)
      else throw (Error "Metadata does not contain userinfo_endpoint")
  | None => throw (Error "Metadata does not contain userinfo_endpoint")
  end.

(** [loadAuthorizationEndpoint].  Its [.catch(function (error) { return
    error(error); })] calls the caught error object, which is not a
    function: every rejection it handles becomes a [TypeError]. *)
Definition loadAuthorizationEndpoint : M jvalue :=
  if truthy_str (authorization_endpoint cfg) then
    mret (JStr (default "" (authorization_endpoint cfg)))
  else if negb (truthy_str (authority cfg)) then
    error "No authorization_endpoint configured"
  else
    catch (md ← loadMetadataAsync;
           ae ← (if truthy (Some md) then getp (Some md) "authorization_endpoint"
                 else mret None);
           match ae with
           | Some a =>
               if truthy (Some md) && truthy ae then mret a
               else error "Metadata does not contain authorization_endpoint"
           | None => error "Metadata does not contain authorization_endpoint"
           end)
          (fun _ => throw TypeError).

(** ** The authorization request *)

(** [settings[key]] for the keys [createTokenRequestAsync] reads. *)
Definition setting (key : string) : option string :=
  if String.eqb key "client_id" then client_id cfg
  else if String.eqb key "redirect_uri" then redirect_uri cfg
  else if String.eqb key "response_type" then response_type cfg
  else if String.eqb key "scope" then scope cfg
  else if String.eqb key "prompt" then prompt cfg
  else if String.eqb key "display" then display cfg
  else if String.eqb key "max_age" then max_age cfg
  else if String.eqb key "ui_locales" then ui_locales cfg
  else if String.eqb key "id_token_hint" then id_token_hint cfg
  else if String.eqb key "login_hint" then login_hint cfg
  else if String.eqb key "acr_values" then acr_values cfg
  else if String.eqb key "response_mode" then response_mode cfg
  else None.

Definition required : list string := ["client_id"; "redirect_uri"; "response_type"; "scope"].

Definition optional : list string :=
  ["prompt"; "display"; "max_age"; "ui_locales"; "id_token_hint"; "login_hint";
   "acr_values"; "response_mode"].

(** The body of [required.forEach] and [optional.forEach]. *)
Definition append_param (url key : string) : string :=
  match setting key with
  | Some value =>
      if truthy_str (Some value) then url ++ "&" ++ key ++ "=" ++ encodeURIComponent value
      else url
  | None => url
  end.

(** The success callback of [createTokenRequestAsync]. *)
Definition token_request (authorization_endpoint : jvalue) : M (jvalue * string) :=
  state ← rand rt;
  let url := js_to_string rt authorization_endpoint ++ "?state=" ++ encodeURIComponent state in
  '(url, nonce) ← (if isOidc cfg then
                     nonce ← rand rt;
                     mret (url ++ "&nonce=" ++ encodeURIComponent nonce, Some nonce)
                   else mret (url, None));
  let url := fold_left append_param required url in
  let url := fold_left append_param optional url in
  let request_state :=
    JObj ([("oidc", JBool (isOidc cfg)); ("oauth", JBool (isOauth cfg)); ("state", JStr state)]
          ++ match nonce with
             | Some n => if truthy_str nonce then [("nonce", JStr n)] else []
             | None => []
             end)%list in
  _ ← store_set (store_key cfg) (Some (JSON_stringify rt request_state));
  mret (request_state, url).

(** [createTokenRequestAsync].  Without an authorization endpoint and an
    authority, [loadAuthorizationEndpoint] throws before a promise exists,
    so the rejection handler is never attached; otherwise the handler
    [function (error) { return error(error); }] turns a rejection into a
    [TypeError]. *)
Definition createTokenRequestAsync : M (jvalue * string) :=
  if negb (truthy_str (authorization_endpoint cfg)) && negb (truthy_str (authority cfg))
  then ep ← loadAuthorizationEndpoint; token_request ep
  else then2 loadAuthorizationEndpoint token_request (fun _ => throw TypeError).

(** ** Token validation *)

Definition Qlt_bool (a b : Q) : bool := negb (Qle_bool b a).

(** [now - iat > 5 * 60]; a [NaN] difference is not greater. *)
Definition too_old (now : Z) (iat : option jvalue) : bool :=
  match to_number rt iat with
  | Some q => Qlt_bool 300 (inject_Z now - q)
  | None => false
  end.

(** [exp < now]; [NaN] is not less. *)
Definition expired (now : Z) (exp : option jvalue) : bool :=
  match to_number rt exp with
  | Some q => Qlt_bool q (inject_Z now)
  | None => false
  end.

(** The callback on the userinfo response in [validateIdTokenAsync]. *)
Definition merge_profile (id_token_contents profile : jvalue) : M jvalue :=
  statusCode ← getp (Some profile) "statusCode";
  if truthy statusCode then mret (utility_copy id_token_contents None)
  else mret (utility_copy profile (Some id_token_contents)).

(** The callback on the metadata in [validateIdTokenAsync]: issuer,
    audience, age and expiry, then the userinfo merge. *)
Definition check_id_token_claims (id_token_contents : jvalue)
    (access_token : option string) (md : jvalue) : M jvalue :=
  iss ← getp (Some id_token_contents) "iss";
  issuer ← getp (Some md) "issuer";
  if negb (strict_eq iss issuer) then error "Invalid issuer" else
  aud ← getp (Some id_token_contents) "aud";
  if negb (strict_eq aud (JStr <$> client_id cfg)) then error "Invalid audience" else
  now ← now_seconds;
  iat ← getp (Some id_token_contents) "iat";
  if too_old now iat then error "Token issued too long ago" else
  exp ← getp (Some id_token_contents) "exp";
  if expired now exp then error "Token expired" else
  match access_token with
  | Some tok =>
      if truthy_str access_token && flag (load_user_profile cfg) then
        profile ← loadUserProfile tok;
        merge_profile id_token_contents profile
      else mret id_token_contents
  | None => mret id_token_contents
  end.

(** [validateIdTokenAsync(id_token, nonce, access_token)]. *)
Definition validateIdTokenAsync (id_token : string) (nonce : option jvalue)
    (access_token : option string) : M jvalue :=
  cert ← loadX509SigningKeyAsync;
  if verifyJWSByPemX509Cert rt id_token cert then
    id_token_contents ← json_parse rt (payloadS rt id_token);
    claimed_nonce ← getp (Some id_token_contents) "nonce";
    if negb (strict_eq nonce claimed_nonce) then error "Invalid nonce" else
    md ← loadMetadataAsync;
    check_id_token_claims id_token_contents access_token md
  else error "JWT failed to validate".

(** [validateAccessTokenAsync(id_token_contents, access_token)]. *)
Definition validateAccessTokenAsync (id_token_contents : jvalue)
    (access_token : string) : M unit :=
  at_hash ← getp (Some id_token_contents) "at_hash";
  if negb (truthy at_hash) then error "No at_hash in id_token" else
  let hash := sha256 rt access_token in
  let left := substring 0 (String.length hash / 2) hash in
  let left_b64u := hextob64u rt left in
  if negb (strict_eq (Some (JStr left_b64u)) at_hash) then error "at_hash failed to validate"
  else mret tt.

(** [validateIdTokenAndAccessTokenAsync]. *)
Definition validateIdTokenAndAccessTokenAsync (id_token : string)
    (nonce : option jvalue) (access_token : string) : M jvalue :=
  id_token_contents ← validateIdTokenAsync id_token nonce (Some access_token);
  _ ← validateAccessTokenAsync id_token_contents access_token;
  mret id_token_contents.

(** ** The response processor *)

(** The callback values [processResponseAsync] reads from [result]. *)
Record callback_result : Type := mkResult {
  result_state : option string;
  result_error : option string;
  result_id_token : option string;
  result_access_token : option string;
  result_token_type : option string;
  result_expires_in : option string;
  result_scope : option string;
  result_session_state : option string
}.

(** The object [processResponseAsync] resolves with. *)
Record session : Type := mkSession {
  profile : option jvalue;
  id_token : option string;
  access_token : option string;
  expires_in : option string;
  session_scope : option string;
  session_state : option string
}.

Definition reserved_claims : list string :=
  ["nonce"; "at_hash"; "iat"; "nbf"; "exp"; "aud"; "iss"; "idp"].

(** [if (profile && settings.filter_protocol_claims) remove.forEach(...)];
    deleting a key of a string or an array removes nothing here. *)
Definition filter_profile (p : option jvalue) : option jvalue :=
  if truthy p && flag (filter_protocol_claims cfg) then
    match p with
    | Some (JObj kvs) => Some (JObj (fold_left obj_delete reserved_claims kvs))
    | _ => p
    end
  else p.

(** The last callback of [processResponseAsync]. *)
Definition finish (r : callback_result) (p : option jvalue) : session :=
  mkSession (filter_profile p) (result_id_token r) (result_access_token r)
    (result_expires_in r) (result_scope r) (result_session_state r).

(** The choice of [localPromise]; the guards before it make [id_token] and
    [access_token] present wherever they are passed. *)
Definition verify_tokens (request_state : jvalue) (r : callback_result)
  : M (option jvalue) :=
  oidc ← getp (Some request_state) "oidc";
  oauth ← getp (Some request_state) "oauth";
  nonce ← getp (Some request_state) "nonce";
  if truthy oidc && truthy oauth then
    c ← validateIdTokenAndAccessTokenAsync (default "" (result_id_token r)) nonce
          (default "" (result_access_token r));
    mret (Some c)
  else if truthy oidc then
    c ← validateIdTokenAsync (default "" (result_id_token r)) nonce None;
    mret (Some c)
  else mret None.

(** Lines 361 to 366: the explicit request state, or the stored one, read
    and then cleared. *)
Definition resolve_request_state (requestState : option string) : M (option string) :=
  if truthy_str requestState then mret requestState
  else
    v ← store_get (store_key cfg);
    _ ← store_set (store_key cfg) None;
    mret v.

(** Lines 368 to 441: everything after the request state is resolved. *)
Definition process_request_state (result : option callback_result)
    (request_state : option string) : M session :=
  if negb (truthy_str request_state) then error "No request state loaded" else
  rs ← json_parse rt (default "" request_state);
  if negb (truthy (Some rs)) then error "No request state loaded" else
  st ← getp (Some rs) "state";
  if negb (truthy st) then error "No state loaded" else
  match result with
  | None => error "No OIDC response"
  | Some r =>
      if truthy_str (result_error r) then error (default "" (result_error r)) else
      if negb (strict_eq (JStr <$> result_state r) st) then error "Invalid state" else
      oidc ← getp (Some rs) "oidc";
      _ ← (if truthy oidc then
             if negb (truthy_str (result_id_token r)) then error "No identity token" else
             nonce ← getp (Some rs) "nonce";
             if negb (truthy nonce) then error "No nonce loaded" else mret tt
           else mret tt);
      oauth ← getp (Some rs) "oauth";
      _ ← (if truthy oauth then
             if negb (truthy_str (result_access_token r)) then error "No access token" else
             if negb (truthy_str (result_token_type r))
                || negb (String.eqb (to_lower (default "" (result_token_type r))) "bearer")
             then error "Invalid token type" else
             if negb (truthy_str (result_expires_in r)) then error "No token expiration"
             else mret tt
           else mret tt);
      p ← verify_tokens rs r;
      mret (finish r p)
  end.

(** [processResponseAsync(result, requestState)]. *)
Definition processResponseAsync (result : option callback_result)
    (requestState : option string) : M session :=
  request_state ← resolve_request_state requestState;
  process_request_state result request_state.

End Client.

(** ** The logout request *)

Section Logout.
Variable rt : runtime.
Variable cfg : settings.

(** [createLogoutRequestAsync(id_token_hint)].  The setting
    [post_logout_redirect_uri] is not a field of [settings] above (no other
    function reads it), so its value is passed in. *)
Definition createLogoutRequestAsync (post_logout_redirect_uri : option string)
    (id_token_hint : option string) : M jvalue :=
  md ← loadMetadataAsync rt cfg;
  ep ← getp (Some md) "end_session_endpoint";
  match ep with
  | Some url =>
      if truthy ep then
        if truthy_str id_token_hint && truthy_str post_logout_redirect_uri then
          mret (JStr (js_to_string rt url
                      ++ "?post_logout_redirect_uri="
                      ++ encodeURIComponent (default "" post_logout_redirect_uri)
                      ++ "&id_token_hint=" ++ encodeURIComponent (default "" id_token_hint)))
        else mret url
      else error "No end_session_endpoint in metadata"
  | None => error "No end_session_endpoint in metadata"
  end.

End Logout.

(** ** Merging per-request options *)

(** The request fields [originalURL] reads: [req.connection.encrypted],
    [req.headers] and [req.url]. *)
Record http_request : Type := mkRequest {
  connection_encrypted : option jvalue;
  headers : list (string * jvalue);
  req_url : option jvalue
}.

(** The two functions of Node's [url] module that [mergeRequestOptions]
    calls: the [protocol] of [url.parse(u)] ([null], here [None], for a
    relative URL) and [url.resolve(from, to)]. *)
Record url_lib : Type := {
  url_parse_protocol : string -> option string;
  url_resolve : string -> string -> string
}.

Section Merge.
Variable rt : runtime.
Variable ul : url_lib.

(** [a || b]. *)
Definition js_or (a b : option jvalue) : option jvalue := if truthy a then a else b.

(** [String(v)] for a value that may be [undefined]. *)
Definition js_to_string_opt (v : option jvalue) : string :=
  match v with Some v' => js_to_string rt v' | None => "undefined" end.

(** [v == "https"] for a header value: a string is compared as it is, an
    array through its string form; numbers, booleans, [null] and objects
    are never loosely equal to ["https"]. *)
Definition loose_eq_https (v : option jvalue) : bool :=
  match v with
  | Some (JStr s) => String.eqb s "https"
  | Some (JArr _ as a) => String.eqb (js_to_string rt a) "https"
  | _ => false
  end.

(** [xs.join(sep)]: an [undefined] separator is [","], [null] elements give
    the empty string. *)
Definition js_join (sep : option jvalue) (xs : list jvalue) : string :=
  let sep' := match sep with None => "," | Some v => js_to_string rt v end in
  (fix join (xs : list jvalue) : string :=
     match xs with
     | [] => ""
     | x :: r =>
         let sx := match x with JNull => "" | _ => js_to_string rt x end in
         match r with [] => sx | _ => sx ++ sep' ++ join r end
     end) xs.

(** [obj[k] = v]; assigning [undefined] is modelled by removing the key,
    which every read of these settings sees the same way. *)
Definition obj_put (kvs : list (string * jvalue)) (k : string) (v : option jvalue)
  : list (string * jvalue) :=
  match v with Some x => obj_set kvs k x | None => obj_delete kvs k end.

(** [originalURL(req)]. *)
Definition originalURL (req : http_request) : string :=
  let protocol :=
    if truthy (connection_encrypted req)
       || loose_eq_https (obj_get (headers req) "x-forwarded-proto")
    then "https" else "http" in
  let host := obj_get (headers req) "host" in
  let path := if truthy (req_url req) then js_to_string_opt (req_url req) else "" in
  protocol ++ "://" ++ js_to_string_opt host ++ path.

(** The callback URL after [url.parse]: a relative one is resolved against
    the URL of the request.  [url.parse] throws a [TypeError] on anything
    but a string. *)
Definition resolve_callback (req : http_request) (callbackURL : option jvalue)
  : outcome (option jvalue) :=
  if truthy callbackURL then
    match callbackURL with
    | Some (JStr u) =>
        if truthy_str (url_parse_protocol ul u) then Ok callbackURL
        else Ok (Some (JStr (url_resolve ul (originalURL req) u)))
    | _ => Throw TypeError
    end
  else Ok callbackURL.

(** [params.openid.realm = realm] (in strict mode): [undefined] or [null]
    has no properties and a primitive cannot take one, both a [TypeError];
    an array takes it as a named property, which its [jvalue] does not
    show. *)
Definition set_openid_realm (params : list (string * jvalue)) (realm : option jvalue)
  : outcome (list (string * jvalue)) :=
  match obj_get params "openid", realm with
  | Some (JObj o), Some r => Ok (obj_set params "openid" (JObj (obj_set o "realm" r)))
  | Some (JObj o), None => Ok (obj_set params "openid" (JObj (obj_delete o "realm")))
  | Some (JArr _), _ => Ok params
  | _, _ => Throw TypeError
  end.

(** [if (options[k]) { params[k'] = options[k]; }] *)
Definition copy_option (options params : list (string * jvalue)) (k k' : string)
  : list (string * jvalue) :=
  if truthy (obj_get options k) then obj_put params k' (obj_get options k) else params.

(** [mergeRequestOptions(req, options)].  [params] is the settings object
    itself ([var params = config]), so every write lands in the settings at
    once and stays there when a later statement throws; the result is the
    outcome with the settings object as it is left. *)
Definition mergeRequestOptions (req : http_request) (options config : list (string * jvalue))
  : outcome unit * list (string * jvalue) :=
  let callbackURL := js_or (obj_get options "callbackURL") (obj_get config "callbackURL") in
  match resolve_callback req callbackURL with
  | Throw e => (Throw e, config)
  | Ok callbackURL =>
      let params := obj_put config "redirect_uri" callbackURL in
      let params :=
        if truthy (obj_get options "response_mode") || truthy (obj_get params "response_mode")
        then obj_put params "response_mode"
               (js_or (obj_get options "response_mode") (obj_get params "response_mode"))
        else params in
      let params := obj_put params "response_type"
                      (js_or (obj_get options "response_type") (obj_get params "response_type")) in
      let params := copy_option options params "prompt" "prompt" in
      let params := copy_option options params "display" "display" in
      let params := copy_option options params "login_hint" "login_hint" in
      let params := copy_option options params "accessType" "access_type" in
      match (if truthy (obj_get options "openidRealm")
             then set_openid_realm params (obj_get options "openidRealm")
             else Ok params) with
      | Throw e => (Throw e, params)
      | Ok params =>
          let params := copy_option options params "hd" "hd" in
          let params := copy_option options params "acr_values" "acr_values" in
          let scope := js_or (obj_get options "scope") (obj_get params "scope") in
          let scope := match scope with
                       | Some (JArr xs) => Some (JStr (js_join (obj_get params "scopeSeparator") xs))
                       | _ => scope
                       end in
          let params :=
            if truthy scope
            then obj_set params "scope"
                   (JStr ("openid" ++ js_to_string_opt (obj_get params "scopeSeparator")
                          ++ js_to_string_opt scope))
            else obj_set params "scope" (JStr "openid") in
          (Ok tt, params)
      end
  end.

End Merge.

(** ** Auxiliary notions for the statements *)

(** The keys [mergeRequestOptions] writes before the scope. *)
Definition merge_written : list string :=
  ["redirect_uri"; "response_mode"; "response_type"; "prompt"; "display"; "login_hint";
   "access_type"; "hd"; "acr_values"].


(** A computation that leaves one component of the state as it is. *)
Definition keeps {X A} (f : state -> X) (m : M A) : Prop :=
  forall s, f (snd (m s)) = f s.

(** The state once [processResponseAsync] has cleared the stored request
    state. *)
Definition clear_entry (cfg : settings) (s : state) : state :=
  mkState (delete (store_key cfg) (store s)) (metadata s) (jwks s) (rand_count s) (clock_ms s).

(** The spec's reading of the response type: its white-space separated
    tokens include [tok]. *)
Definition response_type_has (cfg : settings) (tok : string) : bool :=
  match response_type cfg with
  | Some r => existsb (String.eqb tok) (split_ws r)
  | None => false
  end.

(** The spec's words: the left half of the digest bytes. *)
Definition left_half (d : list Byte.byte) : list Byte.byte := firstn (length d / 2) d.

(** [at_hash] equals the expected string. *)
Definition at_hash_matches (expected : string) (at_hash : option jvalue) : bool :=
  match at_hash with
  | Some (JStr h) => String.eqb h expected
  | _ => false
  end.

(** The spec's description of the URL: [state], then [nonce] when there is
    one, then the four required and the eight optional parameters in this
    order, each present exactly when its value is non-empty, every value
    percent-encoded. *)
Definition spec_query_param (key : string) (value : option string) : string :=
  match value with
  | Some v => if String.eqb v "" then "" else "&" ++ key ++ "=" ++ encodeURIComponent v
  | None => ""
  end.

Definition spec_authorization_url (endpoint state : string) (nonce : option string)
    (cfg : settings) : string :=
  endpoint ++ "?state=" ++ encodeURIComponent state ++
  (match nonce with Some n => "&nonce=" ++ encodeURIComponent n | None => "" end) ++
  String.concat ""
    (map (fun kv => spec_query_param (fst kv) (snd kv))
       [("client_id", client_id cfg); ("redirect_uri", redirect_uri cfg);
        ("response_type", response_type cfg); ("scope", scope cfg);
        ("prompt", prompt cfg); ("display", display cfg); ("max_age", max_age cfg);
        ("ui_locales", ui_locales cfg); ("id_token_hint", id_token_hint cfg);
        ("login_hint", login_hint cfg); ("acr_values", acr_values cfg);
        ("response_mode", response_mode cfg)]).

(** ** A sample run

    A concrete runtime and configuration: a fixed table stands for
    [JSON.parse] (payloads are their own token strings), signatures always
    verify, the digest is 32 zero bytes, the userinfo endpoint answers with a
    small profile, and the [n]-th random value is the [n]-th letter. *)

Definition demo_claims : list (string * jvalue) :=
  [("iss", JStr "https://op.example"); ("aud", JStr "client1"); ("sub", JStr "u1");
   ("nonce", JStr "n0"); ("iat", JNum (inject_Z 1000)); ("exp", JNum (inject_Z 2000));
   ("name", JStr "Token Name")].

Definition demo_old_claims : list (string * jvalue) :=
  [("iss", JStr "https://op.example"); ("aud", JStr "client1"); ("sub", JStr "u1");
   ("nonce", JStr "n0"); ("iat", JNum (inject_Z 800)); ("exp", JNum (inject_Z 1100))].

Definition demo_request_state : jvalue :=
  JObj [("oidc", JBool true); ("oauth", JBool false); ("state", JStr "abc"); ("nonce", JStr "n0")].

Definition demo_json : list (string * jvalue) :=
  [("rs-oidc", demo_request_state); ("tok-good", JObj demo_claims);
   ("tok-old", JObj demo_old_claims)].

Definition demo_JSON_parse (str : string) : option jvalue :=
  match List.find (fun kv => String.eqb (fst kv) str) demo_json with
  | Some kv => Some (snd kv)
  | None => None
  end.

Definition demo_userinfo : list (string * jvalue) :=
  [("sub", JStr "u1"); ("name", JStr "Ann")].

Definition demo_rt : runtime := {|
  JSON_parse := demo_JSON_parse;
  JSON_stringify := fun _ => "{}";
  number_to_string := fun _ => "0";
  string_to_number := fun _ => None;
  verifyJWSByPemX509Cert := fun _ _ => true;
  payloadS := fun tok => tok;
  sha256_bytes := fun _ => repeat Byte.x00 32;
  sha256_length := fun _ => eq_refl;
  b64u_encode := fun _ => "AAAAAAAAAAAAAAAAAAAAAA";
  fetch_json := fun url _ =>
    if String.eqb url "https://op.example/userinfo" then inr (JObj demo_userinfo)
    else inl "network unavailable";
  random_string := fun n => String (ascii_of_nat (97 + n)) EmptyString
|}.

Definition demo_server : settings :=
  mkSettings None None None (Some "https://op.example")
    (Some "https://op.example/authorize") None (Some "client1")
    (Some "https://rp.example/cb") (Some "openid profile") None None None None None
    None None None.

Definition demo_cfg : settings := OidcClient demo_server.

Definition demo_metadata : list (string * jvalue) :=
  [("issuer", JStr "https://op.example");
   ("userinfo_endpoint", JStr "https://op.example/userinfo")].

Definition demo_jwks (keys : list jvalue) : jvalue := JObj [("keys", JArr keys)].

Definition demo_rsa_key : jvalue := JObj [("kty", JStr "RSA"); ("x5c", JArr [JStr "CERT"])].

Definition demo_state : state :=
  mkState ∅ (Some (JObj demo_metadata)) (Some (demo_jwks [demo_rsa_key])) 0 1200000.

Definition demo_result (st : string) : callback_result :=
  mkResult (Some st) None (Some "tok-good") None None None None None.

(** A second runtime for the samples below: it reads back the request state
    it serialises and serves a key set whose only key is not RSA. *)
Definition demo_oauth_request_state : jvalue :=
  JObj [("oidc", JBool false); ("oauth", JBool true); ("state", JStr "a")].

Definition demo_metadata2 : list (string * jvalue) :=
  [("issuer", JStr "https://op.example");
   ("jwks_uri", JStr "https://op.example/jwks");
   ("end_session_endpoint", JStr "https://op.example/logout")].

Definition demo_ec_key : jvalue := JObj [("kty", JStr "EC"); ("x5c", JArr [JStr "CERT"])].

Definition demo_rt2 : runtime := {|
  JSON_parse := fun str =>
    if String.eqb str "rs-oauth" then Some demo_oauth_request_state else demo_JSON_parse str;
  JSON_stringify := fun _ => "rs-oauth";
  number_to_string := number_to_string demo_rt;
  string_to_number := string_to_number demo_rt;
  verifyJWSByPemX509Cert := verifyJWSByPemX509Cert demo_rt;
  payloadS := payloadS demo_rt;
  sha256_bytes := sha256_bytes demo_rt;
  sha256_length := sha256_length demo_rt;
  b64u_encode := b64u_encode demo_rt;
  fetch_json := fun url tok =>
    if String.eqb url "https://op.example/jwks" then inr (demo_jwks [demo_ec_key])
    else if String.eqb url "https://op.example/.well-known/openid-configuration"
    then inr (JObj demo_metadata2)
    else fetch_json demo_rt url tok;
  random_string := random_string demo_rt
|}.

(** A client of the OAuth flow alone, and one with an authority but no
    authorization endpoint. *)
Definition demo_oauth_cfg : settings :=
  OidcClient (mkSettings None None None None (Some "https://op.example/authorize")
                (Some "token") (Some "client1") None None None None None None None None
                None None).

Definition demo_authority_cfg : settings :=
  OidcClient (mkSettings None None None (Some "https://op.example") None None
                (Some "client1") None None None None None None None None None None).

Definition demo_empty_state : state := mkState ∅ None None 0 1200000.

Definition demo_metadata_state : state := mkState ∅ (Some (JObj demo_metadata2)) None 0 1200000.

Definition demo_stored_state : state :=
  mkState (<["OidcClient.request_state" := "rs-oidc"]> ∅) (Some (JObj demo_metadata))
    (Some (demo_jwks [demo_rsa_key])) 0 1200000.

Definition demo_oauth_url : string :=
  "https://op.example/authorize?state=a&client_id=client1&response_type=token".

Definition demo_oauth_state1 : state :=
  mkState (<["OidcClient.request_state" := "rs-oauth"]> ∅) None None 1 1200000.

Definition demo_oauth_result : callback_result :=
  mkResult (Some "a") None None (Some "at1") (Some "Bearer") (Some "3600") None None.

Definition demo_error_result : callback_result :=
  mkResult (Some "zzz") (Some "access_denied") None None None None None None.

(** The URL library and a request for [mergeRequestOptions]: a URL has a
    protocol when it starts with ["https:"], and resolving appends. *)
Definition demo_url_lib : url_lib := {|
  url_parse_protocol := fun u => if String.prefix "https:" u then Some "https:" else None;
  url_resolve := fun base u => base ++ u
|}.

Definition demo_req : http_request :=
  mkRequest None [("host", JStr "rp.example"); ("x-forwarded-proto", JStr "https")]
    (Some (JStr "/login")).

Definition demo_merge_config : list (string * jvalue) :=
  [("callbackURL", JStr "/cb"); ("response_type", JStr "code"); ("scope", JStr "profile");
   ("scopeSeparator", JStr " ")].

(** * Proofs *)

(** ** Monad and state-frame lemmas *)

Ltac unfold_m := unfold mbind, M_bind, mret, M_ret, throw, then2, catch in *.

Lemma bind_Ok {A B} (m : M A) (k : A -> M B) s a s' :
  m s = (Ok a, s') -> (x ← m; k x) s = k a s'.
Proof. intros H. unfold_m. now rewrite H. Qed.

Lemma bind_Throw {A B} (m : M A) (k : A -> M B) s e s' :
  m s = (Throw e, s') -> (x ← m; k x) s = (Throw e, s').
Proof. intros H. unfold_m. now rewrite H. Qed.

Lemma bind_Ok_inv {A B} (m : M A) (k : A -> M B) s b s' :
  (x ← m; k x) s = (Ok b, s') -> exists a s1, m s = (Ok a, s1) /\ k a s1 = (Ok b, s').
Proof.
  unfold_m. destruct (m s) as [[a|e] s1]; intros H; [eauto | discriminate].
Qed.

Section Keeps.
Context {X : Type} (f : state -> X).

Lemma keeps_ret {A} (a : A) : keeps f (mret a).
Proof. intros s. reflexivity. Qed.

Lemma keeps_throw {A} e : keeps f (@throw A e).
Proof. intros s. reflexivity. Qed.

Lemma keeps_bind {A B} (m : M A) (k : A -> M B) :
  keeps f m -> (forall a, keeps f (k a)) -> keeps f (x ← m; k x).
Proof.
  intros Hm Hk s. unfold_m. specialize (Hm s).
  destruct (m s) as [[a|e] s1] eqn:E; simpl in *; [rewrite Hk|]; exact Hm.
Qed.

Lemma keeps_then2 {A B} (m : M A) (k : A -> M B) (h : js_error -> M B) :
  keeps f m -> (forall a, keeps f (k a)) -> (forall e, keeps f (h e)) ->
  keeps f (then2 m k h).
Proof.
  intros Hm Hk Hh s. unfold then2. specialize (Hm s).
  destruct (m s) as [[a|e] s1]; simpl in *; [rewrite Hk | rewrite Hh]; exact Hm.
Qed.

Lemma keeps_catch {A} (m : M A) (h : js_error -> M A) :
  keeps f m -> (forall e, keeps f (h e)) -> keeps f (catch m h).
Proof. intros Hm Hh. apply keeps_then2; auto using keeps_ret. Qed.

Lemma keeps_getp v k : keeps f (getp v k).
Proof. intros st. destruct v as [[]|]; reflexivity. Qed.

Lemma keeps_error {A} msg : keeps f (@error A msg).
Proof. intros s. reflexivity. Qed.

End Keeps.

Lemma keeps_read_metadata {X} (f : state -> X) : keeps f read_metadata.
Proof. intros s. reflexivity. Qed.
Lemma keeps_read_jwks {X} (f : state -> X) : keeps f read_jwks.
Proof. intros s. reflexivity. Qed.
Lemma keeps_now {X} (f : state -> X) : keeps f now_seconds.
Proof. intros s. reflexivity. Qed.
Lemma keeps_getJson {X} (f : state -> X) rt url tok : keeps f (getJson rt url tok).
Proof. intros s. unfold getJson. destruct (fetch_json rt url tok); reflexivity. Qed.
Lemma keeps_json_parse {X} (f : state -> X) rt str : keeps f (json_parse rt str).
Proof. intros s. unfold json_parse. destruct (JSON_parse rt str); reflexivity. Qed.
Lemma keeps_store_get {X} (f : state -> X) k : keeps f (store_get k).
Proof. intros s. reflexivity. Qed.

Lemma store_write_metadata md : keeps store (write_metadata md).
Proof. intros s. reflexivity. Qed.
Lemma store_write_jwks jw : keeps store (write_jwks jw).
Proof. intros s. reflexivity. Qed.
Lemma rand_count_write_metadata md : keeps rand_count (write_metadata md).
Proof. intros s. reflexivity. Qed.

Create HintDb keeps.
#[local] Hint Resolve keeps_ret keeps_throw keeps_getp keeps_error keeps_read_metadata
  keeps_read_jwks keeps_now keeps_getJson keeps_json_parse keeps_store_get
  store_write_metadata store_write_jwks rand_count_write_metadata : keeps.

(** Walks through binds, handlers, conditionals and matches. *)
Ltac keeps_step :=
  first
    [ solve [eauto with keeps]
    | apply keeps_bind; [ | intros ?]
    | apply keeps_then2; [ | intros ? | intros ?]
    | apply keeps_catch; [ | intros ?]
    | match goal with
      | |- keeps _ (if ?b then _ else _) => destruct b
      | |- keeps _ (match ?x with _ => _ end) => destruct x
      end ].

Ltac keeps_tac := repeat keeps_step.

(** The loaders and validators touch only the cached metadata and key set:
    they keep every component that the two cache writes keep. *)
Section Frame.
Context {X : Type} (f : state -> X).
Hypothesis keeps_write_metadata : forall md, keeps f (write_metadata md).
Hypothesis keeps_write_jwks : forall jw, keeps f (write_jwks jw).
Variable rt : runtime.
Variable cfg : settings.

#[local] Hint Resolve keeps_write_metadata keeps_write_jwks : keeps.

Lemma keeps_loadMetadataAsync : keeps f (loadMetadataAsync rt cfg).
Proof. unfold loadMetadataAsync, fetch_metadata. keeps_tac. Qed.
#[local] Hint Resolve keeps_loadMetadataAsync : keeps.

Lemma keeps_getKeyAsync jw : keeps f (getKeyAsync jw).
Proof. unfold getKeyAsync. keeps_tac. Qed.
#[local] Hint Resolve keeps_getKeyAsync : keeps.

Lemma keeps_loadX509SigningKeyAsync : keeps f (loadX509SigningKeyAsync rt cfg).
Proof. unfold loadX509SigningKeyAsync, fetch_signing_key. keeps_tac. Qed.
#[local] Hint Resolve keeps_loadX509SigningKeyAsync : keeps.

Lemma keeps_loadUserProfile tok : keeps f (loadUserProfile rt cfg tok).
Proof. unfold loadUserProfile. keeps_tac. Qed.
#[local] Hint Resolve keeps_loadUserProfile : keeps.

Lemma keeps_loadAuthorizationEndpoint : keeps f (loadAuthorizationEndpoint rt cfg).
Proof. unfold loadAuthorizationEndpoint. keeps_tac. Qed.

Lemma keeps_merge_profile c p : keeps f (merge_profile c p).
Proof. unfold merge_profile. keeps_tac. Qed.
#[local] Hint Resolve keeps_merge_profile : keeps.

Lemma keeps_validateIdTokenAsync tok nonce at_ :
  keeps f (validateIdTokenAsync rt cfg tok nonce at_).
Proof. unfold validateIdTokenAsync, check_id_token_claims. keeps_tac. Qed.
#[local] Hint Resolve keeps_validateIdTokenAsync : keeps.

Lemma keeps_validateAccessTokenAsync c tok : keeps f (validateAccessTokenAsync rt c tok).
Proof. unfold validateAccessTokenAsync. keeps_tac. Qed.
#[local] Hint Resolve keeps_validateAccessTokenAsync : keeps.

Lemma keeps_verify_tokens rs r : keeps f (verify_tokens rt cfg rs r).
Proof. unfold verify_tokens, validateIdTokenAndAccessTokenAsync. keeps_tac. Qed.
#[local] Hint Resolve keeps_verify_tokens : keeps.

Lemma keeps_process_request_state r v : keeps f (process_request_state rt cfg r v).
Proof. unfold process_request_state. keeps_tac. Qed.

End Frame.

(** ** Request state: read, clear, parse *)

Lemma processResponseAsync_reads_store rt cfg result s :
  processResponseAsync rt cfg result None s =
  process_request_state rt cfg result (store s !! store_key cfg) (clear_entry cfg s).
Proof. reflexivity. Qed.

Lemma processResponseAsync_explicit rt cfg result rs s :
  truthy_str (Some rs) = true ->
  processResponseAsync rt cfg result (Some rs) s = process_request_state rt cfg result (Some rs) s.
Proof. intros H. unfold processResponseAsync, resolve_request_state. rewrite H. reflexivity. Qed.

Lemma process_request_state_missing rt cfg result s :
  process_request_state rt cfg result None s = (Throw (Error "No request state loaded"), s).
Proof. reflexivity. Qed.

(** C2: without an explicit request state, [processResponseAsync] reads the
    stored entry and clears it before any check (the run is the checks
    applied to the entry read, from the state with the entry deleted); the
    entry is gone after the call whatever its outcome; so a second such
    call fails with MissingRequestState ("No request state loaded"). *)
Theorem processResponseAsync_single_use (rt : runtime) (cfg : settings)
    (result : option callback_result) (s : state) :
  processResponseAsync rt cfg result None s =
    process_request_state rt cfg result (store s !! store_key cfg) (clear_entry cfg s) /\
  store (snd (processResponseAsync rt cfg result None s)) !! store_key cfg = None /\
  forall result' : option callback_result,
    fst (processResponseAsync rt cfg result' None (snd (processResponseAsync rt cfg result None s)))
    = Throw (Error "No request state loaded").
Proof.
  assert (Hclr : store (snd (processResponseAsync rt cfg result None s)) !! store_key cfg = None).
  { rewrite processResponseAsync_reads_store.
    rewrite (keeps_process_request_state store store_write_metadata store_write_jwks).
    simpl. apply lookup_delete_eq. }
  split; [apply processResponseAsync_reads_store|]. split; [exact Hclr|].
  intros result'. rewrite processResponseAsync_reads_store, Hclr.
  reflexivity.
Qed.

(** C6, evaluated: a request state that is present but that [JSON.parse]
    rejects makes [processResponseAsync] throw the parser's [SyntaxError],
    not the named failure "No request state loaded". *)
Theorem processResponseAsync_unparsable_throws (rt : runtime) (cfg : settings)
    (result : option callback_result) (requestState : option string) (s s1 : state)
    (rs : string) :
  resolve_request_state cfg requestState s = (Ok (Some rs), s1) ->
  truthy_str (Some rs) = true ->
  JSON_parse rt rs = None ->
  processResponseAsync rt cfg result requestState s = (Throw SyntaxError, s1).
Proof.
  intros Hres Htr Hparse. unfold processResponseAsync.
  rewrite (bind_Ok _ _ _ _ _ Hres).
  unfold process_request_state. rewrite Htr. simpl.
  unfold json_parse. rewrite Hparse. reflexivity.
Qed.

Lemma truthy_prop_state_obj v :
  truthy (prop v "state") = true -> exists kvs, v = JObj kvs.
Proof. destruct v; simpl; try discriminate; eauto. Qed.

(** C1: once the request state is resolved and parsed, carries a present
    [state], the callback [result] is non-null and has no [error], a
    [result.state] different (by [!==]) from the stored [state] makes
    [processResponseAsync] fail with StateMismatch ("Invalid state"),
    whatever the other fields of [result] are. *)
Theorem processResponseAsync_state_mismatch (rt : runtime) (cfg : settings)
    (r : callback_result) (requestState : option string) (s s1 : state)
    (rs : string) (v : jvalue) :
  resolve_request_state cfg requestState s = (Ok (Some rs), s1) ->
  truthy_str (Some rs) = true ->
  JSON_parse rt rs = Some v ->
  truthy (prop v "state") = true ->
  truthy_str (result_error r) = false ->
  strict_eq (JStr <$> result_state r) (prop v "state") = false ->
  processResponseAsync rt cfg (Some r) requestState s = (Throw (Error "Invalid state"), s1).
Proof.
  intros Hres Htr Hparse Hst Herr Hneq.
  destruct (truthy_prop_state_obj v Hst) as [kvs ->].
  unfold processResponseAsync. rewrite (bind_Ok _ _ _ _ _ Hres).
  unfold process_request_state. rewrite Htr. change (default "" (Some rs)) with rs. unfold json_parse. rewrite Hparse.
  simpl in Hst |- *. unfold_m. simpl. rewrite Hst. simpl.
  rewrite Herr. simpl in Hneq. rewrite Hneq. reflexivity.
Qed.

(** ** Response types *)

Lemma hd_filter_truthy (x : string) (l : list string) :
  x <> "" ->
  truthy_str (List.hd_error (List.filter (fun item => String.eqb item x) l))
  = existsb (String.eqb x) l.
Proof.
  intros Hx. induction l as [|a l IH]; [reflexivity|].
  simpl. rewrite (String.eqb_sym x a).
  destruct (String.eqb a x) eqn:E; simpl; [|exact IH].
  apply String.eqb_eq in E. subst a. unfold truthy_str. simpl.
  destruct (String.eqb_spec x ""); [contradiction|reflexivity].
Qed.

Lemma split_ws_empty : split_ws "" = [""].
Proof. reflexivity. Qed.

Lemma isOidc_spec cfg : isOidc cfg = response_type_has cfg "id_token".
Proof.
  unfold isOidc, response_type_has. destruct (response_type cfg) as [r|]; [|reflexivity].
  destruct (truthy_str (Some r)) eqn:T.
  - apply hd_filter_truthy. discriminate.
  - unfold truthy_str in T. simpl in T.
    destruct (String.eqb_spec r ""); [subst; reflexivity|discriminate].
Qed.

Lemma isOauth_spec cfg : isOauth cfg = response_type_has cfg "token".
Proof.
  unfold isOauth, response_type_has. destruct (response_type cfg) as [r|]; [|reflexivity].
  destruct (truthy_str (Some r)) eqn:T.
  - apply hd_filter_truthy. discriminate.
  - unfold truthy_str in T. simpl in T.
    destruct (String.eqb_spec r ""); [subst; reflexivity|discriminate].
Qed.

(** C10: a configuration without a response type gets ["id_token token"]
    from the constructor, so both [isOidc] and [isOauth] hold; the two flags
    test the white-space separated tokens of [response_type] for exactly
    ["id_token"] and ["token"], so ["id_token2"] gives neither. *)
Theorem OidcClient_default_response_type_flags :
  (forall server : settings,
     truthy_str (response_type server) = false ->
     response_type (OidcClient server) = Some "id_token token" /\
     isOidc (OidcClient server) = true /\ isOauth (OidcClient server) = true) /\
  (forall cfg : settings,
     isOidc cfg = response_type_has cfg "id_token" /\
     isOauth cfg = response_type_has cfg "token") /\
  (forall cfg : settings,
     response_type cfg = Some "id_token2" ->
     isOidc cfg = false /\ isOauth cfg = false).
Proof.
  split; [|split].
  - intros server H. unfold OidcClient. simpl. rewrite H.
    split; [reflexivity|]. rewrite isOidc_spec, isOauth_spec. split; reflexivity.
  - intros cfg. split; [apply isOidc_spec | apply isOauth_spec].
  - intros cfg H. rewrite isOidc_spec, isOauth_spec.
    unfold response_type_has. rewrite H. split; reflexivity.
Qed.

(** ** The access-token hash *)

Lemma str_app_cons (x : ascii) (a b : string) : String x a ++ b = String x (a ++ b).
Proof. reflexivity. Qed.

Lemma str_app_empty (b : string) : "" ++ b = b.
Proof. reflexivity. Qed.

Lemma length_bytes_to_hex bs : String.length (bytes_to_hex bs) = (2 * length bs)%nat.
Proof.
  induction bs as [|b bs IH]; [reflexivity|].
  simpl bytes_to_hex. unfold byte_to_hex. rewrite !str_app_cons, str_app_empty.
  simpl. rewrite IH. lia.
Qed.

Lemma substring_prefix_app (a b : string) (m : nat) :
  substring 0 (String.length a + m) (a ++ b) = a ++ substring 0 m b.
Proof.
  induction a as [|x a IH]; [reflexivity|].
  rewrite !str_app_cons. simpl. rewrite IH. reflexivity.
Qed.

Lemma substring_0_0 (b : string) : substring 0 0 b = "".
Proof. destruct b; reflexivity. Qed.

Lemma substring_bytes_to_hex bs k :
  substring 0 (2 * k) (bytes_to_hex bs) = bytes_to_hex (firstn k bs).
Proof.
  revert k. induction bs as [|b bs IH]; intros k.
  - destruct k; reflexivity.
  - destruct k as [|k]; [apply substring_0_0|].
    replace (2 * S k)%nat with (String.length (byte_to_hex b) + 2 * k)%nat by (simpl; lia).
    simpl bytes_to_hex. rewrite substring_prefix_app, IH. reflexivity.
Qed.

Lemma hex_byte_roundtrip (b : Byte.byte) :
  Byte.of_nat (16 * hex_value (hex_char hex_lower (Byte.to_nat b / 16))
               + hex_value (hex_char hex_lower (Byte.to_nat b mod 16))) = Some b.
Proof. destruct b; vm_compute; reflexivity. Qed.

Lemma hex_to_bytes_cons c1 c2 r :
  hex_to_bytes (String c1 (String c2 r)) =
  match Byte.of_nat (16 * hex_value c1 + hex_value c2) with
  | Some b => b :: hex_to_bytes r
  | None => hex_to_bytes r
  end.
Proof. reflexivity. Qed.

Lemma hex_to_bytes_roundtrip bs : hex_to_bytes (bytes_to_hex bs) = bs.
Proof.
  induction bs as [|b bs IH]; [reflexivity|].
  simpl bytes_to_hex. unfold byte_to_hex. rewrite !str_app_cons, str_app_empty.
  rewrite hex_to_bytes_cons, hex_byte_roundtrip, IH. reflexivity.
Qed.

Lemma strict_eq_str_matches x v :
  strict_eq (Some (JStr x)) v = at_hash_matches x v.
Proof.
  destruct v as [[]|]; simpl; try reflexivity. apply String.eqb_sym.
Qed.

(** The code's hexadecimal route computes the spec's left half. *)
Lemma left_b64u_spec rt tok :
  hextob64u rt (substring 0 (String.length (sha256 rt tok) / 2) (sha256 rt tok))
  = b64u_encode rt (left_half (sha256_bytes rt tok)).
Proof.
  unfold hextob64u, sha256, left_half. rewrite length_bytes_to_hex, sha256_length.
  change (2 * 32 / 2)%nat with (2 * 16)%nat. rewrite substring_bytes_to_hex.
  rewrite hex_to_bytes_roundtrip. reflexivity.
Qed.

(** C4: [validateAccessTokenAsync] fails with MissingAtHash ("No at_hash in
    id_token") when the claims have no [at_hash] (absent or empty); otherwise
    it succeeds exactly when the base64url encoding of the left half of the
    SHA-256 digest of the access token equals [at_hash], and fails with
    AtHashMismatch ("at_hash failed to validate") when it does not. *)
Theorem validateAccessTokenAsync_at_hash (rt : runtime)
    (kvs : list (string * jvalue)) (access_token : string) (s : state) :
  validateAccessTokenAsync rt (JObj kvs) access_token s =
  (if negb (truthy (obj_get kvs "at_hash")) then Throw (Error "No at_hash in id_token")
   else if at_hash_matches (b64u_encode rt (left_half (sha256_bytes rt access_token)))
             (obj_get kvs "at_hash")
   then Ok tt
   else Throw (Error "at_hash failed to validate"), s).
Proof.
  unfold validateAccessTokenAsync. cbv zeta.
  rewrite left_b64u_spec.
  unfold getp. unfold_m. cbn [prop]. rewrite strict_eq_str_matches.
  destruct (truthy (obj_get kvs "at_hash")); [|reflexivity]. cbn [negb].
  destruct (at_hash_matches _ _); reflexivity.
Qed.

(** ** Signing-key selection *)

Lemma loadX509SigningKeyAsync_cached rt cfg s jkvs :
  jwks s = Some (JObj jkvs) ->
  loadX509SigningKeyAsync rt cfg s = getKeyAsync (JObj jkvs) s.
Proof. intros H. unfold loadX509SigningKeyAsync, read_jwks. unfold_m. rewrite H. reflexivity. Qed.

(** C5: with a key set cached on the settings, only the first key of
    [keys] is examined: an empty set fails with "Signing keys empty"; a
    first key whose [kty] is not ["RSA"] fails with "Signing key not RSA"
    whatever the later keys are; an RSA first key with an absent or empty
    [x5c] fails with "RSA keys empty"; an RSA first key with a non-empty
    [x5c] yields that chain's first certificate. *)
Theorem loadX509SigningKeyAsync_first_key (rt : runtime) (cfg : settings) (s : state)
    (jkvs : list (string * jvalue)) :
  jwks s = Some (JObj jkvs) ->
  (obj_get jkvs "keys" = Some (JArr []) ->
     loadX509SigningKeyAsync rt cfg s = (Throw (Error "Signing keys empty"), s)) /\
  (forall k0 ks, obj_get jkvs "keys" = Some (JArr (JObj k0 :: ks)) ->
     (strict_eq (obj_get k0 "kty") (Some (JStr "RSA")) = false ->
        loadX509SigningKeyAsync rt cfg s = (Throw (Error "Signing key not RSA"), s)) /\
     (strict_eq (obj_get k0 "kty") (Some (JStr "RSA")) = true ->
        obj_get k0 "x5c" = None \/ obj_get k0 "x5c" = Some (JArr []) ->
        loadX509SigningKeyAsync rt cfg s = (Throw (Error "RSA keys empty"), s)) /\
     (forall c cs, strict_eq (obj_get k0 "kty") (Some (JStr "RSA")) = true ->
        obj_get k0 "x5c" = Some (JArr (c :: cs)) ->
        loadX509SigningKeyAsync rt cfg s = (Ok (Some c), s))).
Proof.
  intros Hj. rewrite (loadX509SigningKeyAsync_cached rt cfg s jkvs Hj).
  unfold getKeyAsync, getp, error, utility_error. unfold_m. cbn [prop].
  split.
  - intros Hk. rewrite Hk. reflexivity.
  - intros k0 ks Hk. rewrite Hk. cbv -[strict_eq obj_get].
    split; [|split].
    + intros Hkty. rewrite Hkty. reflexivity.
    + intros Hkty [Hx | Hx]; rewrite Hkty, Hx; reflexivity.
    + intros c cs Hkty Hx. rewrite Hkty, Hx. reflexivity.
Qed.

(** ** Identity-token validation *)

Lemma Qlt_bool_iff a b : Qlt_bool a b = true <-> (a < b)%Q.
Proof.
  unfold Qlt_bool. rewrite negb_true_iff. split; intros H.
  - apply Qnot_le_lt. intros H'. apply Qle_bool_iff in H'. congruence.
  - destruct (Qle_bool b a) eqn:E; [|reflexivity].
    apply Qle_bool_iff in E. exfalso. apply (Qlt_not_le a b); assumption.
Qed.

Lemma Qlt_bool_false a b : Qlt_bool a b = false <-> (b <= a)%Q.
Proof.
  split; intros H.
  - apply Qnot_lt_le. intros H'. apply Qlt_bool_iff in H'. congruence.
  - destruct (Qlt_bool a b) eqn:E; [|reflexivity].
    apply Qlt_bool_iff in E. exfalso. apply (Qlt_not_le a b); assumption.
Qed.

(** Past the signature, the nonce and the metadata, [validateIdTokenAsync]
    runs the claim checks on the parsed payload. *)
Lemma validateIdTokenAsync_reduces rt cfg tok nonce at_ s s1 s2 cert c md :
  loadX509SigningKeyAsync rt cfg s = (Ok cert, s1) ->
  verifyJWSByPemX509Cert rt tok cert = true ->
  JSON_parse rt (payloadS rt tok) = Some (JObj c) ->
  strict_eq nonce (obj_get c "nonce") = true ->
  loadMetadataAsync rt cfg s1 = (Ok md, s2) ->
  validateIdTokenAsync rt cfg tok nonce at_ s =
  check_id_token_claims rt cfg (JObj c) at_ md s2.
Proof.
  intros Hc Hv Hp Hn Hm. unfold validateIdTokenAsync.
  rewrite (bind_Ok _ _ _ _ _ Hc), Hv.
  unfold json_parse. rewrite Hp. unfold getp. unfold_m. cbn [prop].
  rewrite Hn. cbn [negb]. rewrite Hm. reflexivity.
Qed.

(** Past the issuer and audience checks, the claim checks come down to the
    age and expiry tests. *)
Lemma check_id_token_claims_times rt cfg c mkvs at_ s2 :
  strict_eq (obj_get c "iss") (obj_get mkvs "issuer") = true ->
  strict_eq (obj_get c "aud") (JStr <$> client_id cfg) = true ->
  check_id_token_claims rt cfg (JObj c) at_ (JObj mkvs) s2 =
  (let now := ((clock_ms s2 + 500) / 1000)%Z in
   if too_old rt now (obj_get c "iat") then (Throw (Error "Token issued too long ago"), s2)
   else if expired rt now (obj_get c "exp") then (Throw (Error "Token expired"), s2)
   else match at_ with
        | Some t =>
            if truthy_str at_ && flag (load_user_profile cfg) then
              (p ← loadUserProfile rt cfg t; merge_profile (JObj c) p) s2
            else (Ok (JObj c), s2)
        | None => (Ok (JObj c), s2)
        end).
Proof.
  intros Hiss Haud. unfold check_id_token_claims, getp, now_seconds.
  unfold_m. cbn [prop]. rewrite Hiss, Haud. cbn [negb].
  destruct (too_old _ _ _); [reflexivity|].
  destruct (expired _ _ _); [reflexivity|].
  destruct at_; [destruct (_ && _)|]; reflexivity.
Qed.

(** C3: for a token whose signature, nonce, issuer and audience checks
    pass, with [now] the clock in seconds rounded to the nearest second,
    [validateIdTokenAsync] fails with "Token issued too long ago" exactly
    when [now - iat > 300]; when that test passes, it fails with "Token
    expired" exactly when [exp < now]; otherwise it goes on to the userinfo
    step (or returns the claims).  A token that is both too old and expired
    is reported as too old. *)
Theorem validateIdTokenAsync_time_checks (rt : runtime) (cfg : settings)
    (tok : string) (nonce : option jvalue) (at_ : option string) (s s1 s2 : state)
    (cert : option jvalue) (c mkvs : list (string * jvalue)) (qi qe : Q) :
  loadX509SigningKeyAsync rt cfg s = (Ok cert, s1) ->
  verifyJWSByPemX509Cert rt tok cert = true ->
  JSON_parse rt (payloadS rt tok) = Some (JObj c) ->
  strict_eq nonce (obj_get c "nonce") = true ->
  loadMetadataAsync rt cfg s1 = (Ok (JObj mkvs), s2) ->
  strict_eq (obj_get c "iss") (obj_get mkvs "issuer") = true ->
  strict_eq (obj_get c "aud") (JStr <$> client_id cfg) = true ->
  to_number rt (obj_get c "iat") = Some qi ->
  to_number rt (obj_get c "exp") = Some qe ->
  let now := inject_Z ((clock_ms s2 + 500) / 1000) in
  ((300 < now - qi)%Q ->
     validateIdTokenAsync rt cfg tok nonce at_ s = (Throw (Error "Token issued too long ago"), s2)) /\
  ((now - qi <= 300)%Q -> (qe < now)%Q ->
     validateIdTokenAsync rt cfg tok nonce at_ s = (Throw (Error "Token expired"), s2)) /\
  ((now - qi <= 300)%Q -> (now <= qe)%Q ->
     validateIdTokenAsync rt cfg tok nonce at_ s =
     match at_ with
     | Some t =>
         if truthy_str at_ && flag (load_user_profile cfg) then
           (p ← loadUserProfile rt cfg t; merge_profile (JObj c) p) s2
         else (Ok (JObj c), s2)
     | None => (Ok (JObj c), s2)
     end).
Proof.
  intros Hc Hv Hp Hn Hm Hiss Haud Hi He now.
  rewrite (validateIdTokenAsync_reduces rt cfg tok nonce at_ s s1 s2 cert c (JObj mkvs) Hc Hv Hp Hn Hm).
  rewrite (check_id_token_claims_times rt cfg c mkvs at_ s2 Hiss Haud). cbv zeta.
  unfold too_old, expired. rewrite Hi, He. fold now.
  split; [|split].
  - intros Hlt. apply Qlt_bool_iff in Hlt. rewrite Hlt. reflexivity.
  - intros Hle Hlt. apply Qlt_bool_false in Hle. apply Qlt_bool_iff in Hlt.
    rewrite Hle, Hlt. reflexivity.
  - intros Hle Hle'. apply Qlt_bool_false in Hle. apply Qlt_bool_false in Hle'.
    rewrite Hle, Hle'. reflexivity.
Qed.

(** ** The userinfo merge *)

Lemma obj_get_app_last l k v k' :
  obj_get (l ++ [(k, v)]) k' = if String.eqb k' k then Some v else obj_get l k'.
Proof.
  induction l as [|[a b] l IH]; simpl.
  - destruct (String.eqb k' k); reflexivity.
  - rewrite IH. destruct (String.eqb k' k); reflexivity.
Qed.

Lemma obj_get_map_set l k v k' :
  obj_get (map (fun kv => if String.eqb k (fst kv) then (fst kv, v) else kv) l) k' =
  if String.eqb k' k
  then (if existsb (fun kv => String.eqb k (fst kv)) l then Some v else None)
  else obj_get l k'.
Proof.
  induction l as [|[a b] l IH]; simpl.
  - destruct (String.eqb k' k); reflexivity.
  - rewrite IH.
    destruct (String.eqb_spec k a) as [->|Hka]; simpl.
    + destruct (k' =? a); [destruct (existsb _ l)|]; reflexivity.
    + simpl.
      destruct (k' =? k) eqn:E1; [|reflexivity].
      destruct (k' =? a) eqn:E2.
      * apply String.eqb_eq in E1, E2. congruence.
      * destruct (existsb _ l); reflexivity.
Qed.

Lemma obj_get_obj_set kvs k v k' :
  obj_get (obj_set kvs k v) k' = if String.eqb k' k then Some v else obj_get kvs k'.
Proof.
  unfold obj_set. destruct (existsb _ kvs) eqn:E.
  - rewrite obj_get_map_set, E. reflexivity.
  - apply obj_get_app_last.
Qed.

Lemma obj_get_copy_fold kvs base k :
  obj_get (fold_left (fun acc kv => obj_set acc (fst kv) (snd kv)) kvs base) k =
  match obj_get kvs k with Some v => Some v | None => obj_get base k end.
Proof.
  revert base. induction kvs as [|[a b] kvs IH]; intros base; simpl; [reflexivity|].
  rewrite IH, obj_get_obj_set. destruct (obj_get kvs k); [reflexivity|].
  destruct (k =? a); reflexivity.
Qed.

(** C9: when an access token is supplied, profile loading is on and the
    userinfo call returns an object, [validateIdTokenAsync] succeeds: with
    a (truthy) [statusCode] in that object the result has exactly the
    identity-token claims; otherwise every key of the userinfo object has
    its userinfo value and every other key its identity-token value. *)
Theorem validateIdTokenAsync_userinfo_merge (rt : runtime) (cfg : settings)
    (tok : string) (nonce : option jvalue) (at_ : string) (s s1 s2 s3 : state)
    (cert : option jvalue) (c mkvs pk : list (string * jvalue)) :
  loadX509SigningKeyAsync rt cfg s = (Ok cert, s1) ->
  verifyJWSByPemX509Cert rt tok cert = true ->
  JSON_parse rt (payloadS rt tok) = Some (JObj c) ->
  strict_eq nonce (obj_get c "nonce") = true ->
  loadMetadataAsync rt cfg s1 = (Ok (JObj mkvs), s2) ->
  strict_eq (obj_get c "iss") (obj_get mkvs "issuer") = true ->
  strict_eq (obj_get c "aud") (JStr <$> client_id cfg) = true ->
  too_old rt ((clock_ms s2 + 500) / 1000) (obj_get c "iat") = false ->
  expired rt ((clock_ms s2 + 500) / 1000) (obj_get c "exp") = false ->
  truthy_str (Some at_) = true ->
  flag (load_user_profile cfg) = true ->
  loadUserProfile rt cfg at_ s2 = (Ok (JObj pk), s3) ->
  exists res,
    validateIdTokenAsync rt cfg tok nonce (Some at_) s = (Ok (JObj res), s3) /\
    (truthy (obj_get pk "statusCode") = true ->
       forall k, obj_get res k = obj_get c k) /\
    (truthy (obj_get pk "statusCode") = false ->
       forall k, obj_get res k =
                 match obj_get pk k with Some v => Some v | None => obj_get c k end).
Proof.
  intros Hc Hv Hp Hn Hm Hiss Haud Hold Hexp Ht Hf Hu.
  rewrite (validateIdTokenAsync_reduces rt cfg tok nonce (Some at_) s s1 s2 cert c (JObj mkvs) Hc Hv Hp Hn Hm).
  rewrite (check_id_token_claims_times rt cfg c mkvs (Some at_) s2 Hiss Haud). cbv zeta.
  rewrite Hold, Hexp, Ht, Hf. cbn [andb].
  rewrite (bind_Ok _ _ _ _ _ Hu).
  unfold merge_profile, getp. unfold_m. cbn [prop].
  destruct (truthy (obj_get pk "statusCode")) eqn:Hs; unfold utility_copy; eexists;
    (split; [reflexivity|]); split; intros H k; try discriminate.
  - rewrite obj_get_copy_fold. destruct (obj_get c k); reflexivity.
  - apply obj_get_copy_fold.
Qed.

(** ** Filtering the protocol claims *)

Lemma obj_get_obj_delete kvs k k' :
  obj_get (obj_delete kvs k) k' = if String.eqb k' k then None else obj_get kvs k'.
Proof.
  unfold obj_delete. induction kvs as [|[a b] kvs IH]; simpl.
  - destruct (k' =? k); reflexivity.
  - destruct (String.eqb_spec k a) as [->|Hka]; simpl; rewrite IH.
    + destruct (String.eqb_spec k' a) as [E|E]; [subst; reflexivity|].
          destruct (obj_get kvs k'); reflexivity.
    + destruct (String.eqb_spec k' k) as [E|E]; [subst|reflexivity].
      destruct (String.eqb_spec k a); [congruence|reflexivity].
Qed.

Lemma obj_get_delete_all ks kvs k :
  obj_get (fold_left obj_delete ks kvs) k =
  if existsb (String.eqb k) ks then None else obj_get kvs k.
Proof.
  revert kvs. induction ks as [|x ks IH]; intros kvs; simpl; [reflexivity|].
  rewrite IH, obj_get_obj_delete. destruct (k =? x); simpl; [|reflexivity].
  destruct (existsb _ ks); reflexivity.
Qed.

Lemma existsb_eqb_In k ks : existsb (String.eqb k) ks = true <-> In k ks.
Proof.
  rewrite existsb_exists. split.
  - intros [x [Hx E]]. apply String.eqb_eq in E. subst. exact Hx.
  - intros Hk. exists k. split; [exact Hk | apply String.eqb_refl].
Qed.

Lemma process_request_state_reaches_verify rt cfg r rsS rs s1 sess s' :
  JSON_parse rt rsS = Some rs ->
  process_request_state rt cfg (Some r) (Some rsS) s1 = (Ok sess, s') ->
  (p ← verify_tokens rt cfg rs r; mret (finish cfg r p)) s1 = (Ok sess, s').
Proof.
  intros Hp H. unfold process_request_state, json_parse in H.
  change (default "" (Some rsS)) with rsS in H. rewrite Hp in H.
  unfold getp, error, utility_error, throw in H. unfold_m.
  destruct rs as [| b | q | str | xs | kvs];
    repeat (cbn beta iota zeta in H;
            match type of H with context [if ?b then _ else _] => destruct b end);
    try discriminate; exact H.
Qed.

(** C7: when [filter_protocol_claims] is on and the token verification of
    a successful [processResponseAsync] call yields a claims object, the
    session's profile has none of the keys [nonce], [at_hash], [iat],
    [nbf], [exp], [aud], [iss], [idp], and every other key keeps its
    verified value. *)
Theorem processResponseAsync_filters_claims (rt : runtime) (cfg : settings)
    (r : callback_result) (requestState : option string) (rsS : string) (rs : jvalue)
    (c : list (string * jvalue)) (s s1 s2 s' : state) (sess : session) :
  flag (filter_protocol_claims cfg) = true ->
  resolve_request_state cfg requestState s = (Ok (Some rsS), s1) ->
  JSON_parse rt rsS = Some rs ->
  verify_tokens rt cfg rs r s1 = (Ok (Some (JObj c)), s2) ->
  processResponseAsync rt cfg (Some r) requestState s = (Ok sess, s') ->
  exists c',
    profile sess = Some (JObj c') /\
    (forall k, In k reserved_claims -> obj_get c' k = None) /\
    (forall k, ~ In k reserved_claims -> obj_get c' k = obj_get c k).
Proof.
  intros Hf Hres Hp Hv H.
  unfold processResponseAsync in H. rewrite (bind_Ok _ _ _ _ _ Hres) in H.
  apply (process_request_state_reaches_verify rt cfg r rsS rs s1 sess s' Hp) in H.
  rewrite (bind_Ok _ _ _ _ _ Hv) in H. unfold mret, M_ret in H.
  injection H as <- _. cbn [finish profile]. unfold filter_profile. rewrite Hf.
  cbn [truthy andb]. eexists. split; [reflexivity|]. split; intros k Hk.
  - rewrite obj_get_delete_all. apply existsb_eqb_In in Hk. rewrite Hk. reflexivity.
  - rewrite obj_get_delete_all. destruct (existsb (String.eqb k) reserved_claims) eqn:E.
    + apply existsb_eqb_In in E. contradiction.
    + reflexivity.
Qed.

(** ** The authorization URL *)

Lemma str_app_assoc (a b c : string) : (a ++ b) ++ c = a ++ (b ++ c).
Proof.
  induction a as [|x a IH]; [reflexivity|]. rewrite !str_app_cons, IH. reflexivity.
Qed.

Lemma str_app_empty_r (a : string) : a ++ "" = a.
Proof. induction a as [|x a IH]; [reflexivity|]. rewrite str_app_cons, IH. reflexivity. Qed.

Lemma append_param_spec cfg url key :
  append_param cfg url key = url ++ spec_query_param key (setting cfg key).
Proof.
  unfold append_param, spec_query_param. destruct (setting cfg key) as [v|].
  - unfold truthy_str. simpl. destruct (String.eqb v ""); simpl.
    + symmetry. apply str_app_empty_r.
    + reflexivity.
  - symmetry. apply str_app_empty_r.
Qed.

Lemma fold_append_param cfg keys url :
  fold_left (append_param cfg) keys url =
  url ++ String.concat "" (map (fun k => spec_query_param k (setting cfg k)) keys).
Proof.
  revert url. induction keys as [|k keys IH]; intros url; simpl.
  - symmetry. apply str_app_empty_r.
  - rewrite IH, append_param_spec, str_app_assoc. f_equal.
    destruct keys; simpl; [rewrite str_app_empty_r|]; reflexivity.
Qed.

Lemma rand_count_write_jwks jw : keeps rand_count (write_jwks jw).
Proof. intros s. reflexivity. Qed.

Lemma token_request_url rt cfg ep s1 rs url s' :
  token_request rt cfg ep s1 = (Ok (rs, url), s') ->
  url = spec_authorization_url (js_to_string rt ep) (random_string rt (rand_count s1))
          (if response_type_has cfg "id_token"
           then Some (random_string rt (S (rand_count s1))) else None) cfg /\
  rand_count s' = (rand_count s1 + if response_type_has cfg "id_token" then 2 else 1)%nat.
Proof.
  intros H. unfold token_request, rand, store_set in H. unfold_m.
  rewrite isOidc_spec in H.
  destruct (response_type_has cfg "id_token"); cbv beta iota zeta in H; injection H as _ <- <-;
    (split; [|cbn; lia]);
    rewrite !append_param_spec; unfold spec_authorization_url, setting;
    cbn -[String.append encodeURIComponent spec_query_param js_to_string random_string];
    rewrite ?str_app_empty, ?str_app_assoc; reflexivity.
Qed.

(** C8: a successful [createTokenRequestAsync] builds the URL the spec
    describes: [state] (the next random value), then [nonce] (the random
    value after it) exactly when the response type has the token
    ["id_token"], then [client_id], [redirect_uri], [response_type],
    [scope], [prompt], [display], [max_age], [ui_locales], [id_token_hint],
    [login_hint], [acr_values], [response_mode], each exactly when its
    value is non-empty, every value percent-encoded; it draws one random
    value, or two with a nonce. *)
Theorem createTokenRequestAsync_url (rt : runtime) (cfg : settings) (s s' : state)
    (rs : jvalue) (url : string) :
  createTokenRequestAsync rt cfg s = (Ok (rs, url), s') ->
  exists ep,
    url = spec_authorization_url (js_to_string rt ep) (random_string rt (rand_count s))
            (if response_type_has cfg "id_token"
             then Some (random_string rt (S (rand_count s))) else None) cfg /\
    rand_count s' = (rand_count s + if response_type_has cfg "id_token" then 2 else 1)%nat.
Proof.
  intros H.
  assert (Hk : rand_count (snd (loadAuthorizationEndpoint rt cfg s)) = rand_count s)
    by (apply keeps_loadAuthorizationEndpoint; auto using rand_count_write_metadata, rand_count_write_jwks).
  unfold createTokenRequestAsync, then2 in H. unfold_m.
  destruct (_ && _); cbv beta in H; revert H;
    destruct (loadAuthorizationEndpoint rt cfg s) as [[ep|e] s1]; simpl in Hk;
    try discriminate; intros H; exists ep; rewrite <- Hk;
    apply (token_request_url rt cfg ep s1 rs url s' H).
Qed.

(** * Sample runs *)

(** C1 on a sample: the stored state is ["abc"], the callback says
    ["zzz"]. *)
Lemma processResponseAsync_state_mismatch_witness :
  processResponseAsync demo_rt demo_cfg (Some (demo_result "zzz")) (Some "rs-oidc") demo_state
  = (Throw (Error "Invalid state"), demo_state).
Proof.
  apply (processResponseAsync_state_mismatch demo_rt demo_cfg (demo_result "zzz")
           (Some "rs-oidc") demo_state demo_state "rs-oidc" demo_request_state);
    reflexivity.
Defined.

(** C3 on a sample: [now] is 1200, [iat] 1000 and [exp] 2000, so the token
    passes both time checks. *)
Lemma validateIdTokenAsync_time_checks_witness :
  validateIdTokenAsync demo_rt demo_cfg "tok-good" (Some (JStr "n0")) None demo_state
  = (Ok (JObj demo_claims), demo_state).
Proof.
  refine (proj2 (proj2 (validateIdTokenAsync_time_checks demo_rt demo_cfg "tok-good"
            (Some (JStr "n0")) None demo_state demo_state demo_state (Some (JStr "CERT"))
            demo_claims demo_metadata (inject_Z 1000) (inject_Z 2000)
            _ _ _ _ _ _ _ _ _)) _ _);
    first [reflexivity | apply Qle_bool_imp_le; reflexivity].
Defined.

(** C3 fails on a token that is both stale ([iat] 800) and expired ([exp]
    1100 < [now] = 1200): [exp < now], yet the failure is "Token issued too
    long ago", not "Token expired". *)
Lemma validateIdTokenAsync_expired_reported_too_old :
  (inject_Z 1100 < inject_Z ((clock_ms demo_state + 500) / 1000))%Q /\
  validateIdTokenAsync demo_rt demo_cfg "tok-old" (Some (JStr "n0")) None demo_state
  = (Throw (Error "Token issued too long ago"), demo_state).
Proof. split; reflexivity. Qed.

(** C5 on a sample: a key set whose first key is RSA with a certificate. *)
Lemma loadX509SigningKeyAsync_first_key_witness :
  loadX509SigningKeyAsync demo_rt demo_cfg demo_state = (Ok (Some (JStr "CERT")), demo_state).
Proof.
  destruct (loadX509SigningKeyAsync_first_key demo_rt demo_cfg demo_state
              [("keys", JArr [demo_rsa_key])] eq_refl) as [_ Hk].
  destruct (Hk [("kty", JStr "RSA"); ("x5c", JArr [JStr "CERT"])] [] eq_refl) as [_ [_ H]].
  exact (H (JStr "CERT") [] eq_refl eq_refl).
Defined.

(** C5 fails: an EC key first and a qualifying RSA key second; the set is
    rejected with "Signing key not RSA" instead of yielding the RSA key's
    certificate. *)
Lemma loadX509SigningKeyAsync_later_rsa_rejected :
  let s := mkState ∅ (Some (JObj demo_metadata))
             (Some (demo_jwks [JObj [("kty", JStr "EC")]; demo_rsa_key])) 0 1200000 in
  loadX509SigningKeyAsync demo_rt demo_cfg s = (Throw (Error "Signing key not RSA"), s).
Proof. reflexivity. Qed.

(** C6 on a sample: the stored request state ["{bad"] is present but not
    JSON. *)
Lemma processResponseAsync_unparsable_throws_witness :
  let s := mkState (<["OidcClient.request_state" := "{bad"]> ∅) None None 0 0 in
  fst (processResponseAsync demo_rt demo_cfg (Some (demo_result "abc")) None s) = Throw SyntaxError.
Proof.
  intros s.
  rewrite (processResponseAsync_unparsable_throws demo_rt demo_cfg (Some (demo_result "abc"))
             None s (clear_entry demo_cfg s) "{bad"); reflexivity.
Defined.

(** C7 on a sample: an OIDC response whose token verifies. *)
Lemma processResponseAsync_filters_claims_witness :
  exists sess c',
    processResponseAsync demo_rt demo_cfg (Some (demo_result "abc")) (Some "rs-oidc") demo_state
      = (Ok sess, demo_state) /\
    profile sess = Some (JObj c') /\
    (forall k, In k reserved_claims -> obj_get c' k = None) /\
    (forall k, ~ In k reserved_claims -> obj_get c' k = obj_get demo_claims k).
Proof.
  destruct (processResponseAsync demo_rt demo_cfg (Some (demo_result "abc")) (Some "rs-oidc")
              demo_state) as [[sess|e] s'] eqn:E;
    [|vm_compute in E; discriminate].
  assert (Hs : s' = demo_state) by (vm_compute in E; injection E; auto).
  subst s'. exists sess.
  destruct (processResponseAsync_filters_claims demo_rt demo_cfg (demo_result "abc")
              (Some "rs-oidc") "rs-oidc" demo_request_state demo_claims demo_state demo_state
              demo_state demo_state sess eq_refl eq_refl eq_refl eq_refl E) as [c' Hc].
  exists c'. split; [reflexivity | exact Hc].
Defined.

(** C8 on a sample: the default response type has ["id_token"], so the
    URL carries a nonce. *)
Lemma createTokenRequestAsync_url_witness :
  exists rs url s',
    createTokenRequestAsync demo_rt demo_cfg demo_state = (Ok (rs, url), s') /\
    exists ep,
      url = spec_authorization_url (js_to_string demo_rt ep) "a" (Some "b") demo_cfg /\
      rand_count s' = 2%nat.
Proof.
  destruct (createTokenRequestAsync demo_rt demo_cfg demo_state) as [[[rs url]|e] s'] eqn:E;
    [|vm_compute in E; discriminate].
  exists rs, url, s'. split; [reflexivity|].
  exact (createTokenRequestAsync_url demo_rt demo_cfg demo_state s' rs url E).
Defined.

(** C9 on a sample: the userinfo answer has no [statusCode]; its [name]
    wins over the token's. *)
Lemma validateIdTokenAsync_userinfo_merge_witness :
  exists res,
    validateIdTokenAsync demo_rt demo_cfg "tok-good" (Some (JStr "n0")) (Some "at-1") demo_state
      = (Ok (JObj res), demo_state) /\
    obj_get res "name" = Some (JStr "Ann") /\
    obj_get res "iss" = Some (JStr "https://op.example").
Proof.
  destruct (validateIdTokenAsync_userinfo_merge demo_rt demo_cfg "tok-good" (Some (JStr "n0"))
              "at-1" demo_state demo_state demo_state demo_state (Some (JStr "CERT"))
              demo_claims demo_metadata demo_userinfo
              eq_refl eq_refl eq_refl eq_refl eq_refl eq_refl eq_refl eq_refl eq_refl
              eq_refl eq_refl eq_refl) as [res [H [_ Hm]]].
  exists res. split; [exact H|].
  split; [exact (Hm eq_refl "name") | exact (Hm eq_refl "iss")].
Defined.

(** C10 on a sample: the default configuration gets both flags. *)
Lemma OidcClient_default_response_type_flags_witness :
  isOidc demo_cfg = true /\ isOauth demo_cfg = true.
Proof.
  destruct OidcClient_default_response_type_flags as [H _].
  exact (proj2 (H demo_server eq_refl)).
Defined.

(** * Further properties of the client *)

(** ** Merging per-request options *)

Lemma obj_get_obj_put kvs k v k' :
  obj_get (obj_put kvs k v) k' = if String.eqb k' k then v else obj_get kvs k'.
Proof.
  unfold obj_put. destruct v as [x|].
  - apply obj_get_obj_set.
  - rewrite obj_get_obj_delete. reflexivity.
Qed.

Lemma obj_get_copy_option options params k k' x :
  obj_get (copy_option options params k k') x =
  if String.eqb x k' && truthy (obj_get options k) then obj_get options k
  else obj_get params x.
Proof.
  unfold copy_option. destruct (truthy (obj_get options k)); rewrite ?andb_true_r, ?andb_false_r;
    [rewrite obj_get_obj_put|]; reflexivity.
Qed.

Lemma merge_ok_shape rt ul req options config cb :
  resolve_callback rt ul req
    (js_or (obj_get options "callbackURL") (obj_get config "callbackURL")) = Ok cb ->
  truthy (obj_get options "openidRealm") = false ->
  exists P,
    (forall k, ~ In k merge_written -> obj_get P k = obj_get config k) /\
    obj_get P "redirect_uri" = cb /\
    mergeRequestOptions rt ul req options config =
    (Ok tt,
     let scope := js_or (obj_get options "scope") (obj_get config "scope") in
     let scope := match scope with
                  | Some (JArr xs) => Some (JStr (js_join rt (obj_get config "scopeSeparator") xs))
                  | _ => scope
                  end in
     if truthy scope
     then obj_set P "scope"
            (JStr ("openid" ++ js_to_string_opt rt (obj_get config "scopeSeparator")
                   ++ js_to_string_opt rt scope))
     else obj_set P "scope" (JStr "openid")).
Proof.
  intros Hcb Hr. unfold mergeRequestOptions. rewrite Hcb. cbv zeta. rewrite Hr.
  match goal with
  | |- context [js_or (obj_get options "scope") (obj_get ?P "scope")] =>
      assert (HP : forall k, ~ In k merge_written -> obj_get P k = obj_get config k);
      [| assert (HR : obj_get P "redirect_uri" = cb) ]
  end.
  - intros k Hk.
    assert (Hne : forall w, In w merge_written -> String.eqb k w = false)
      by (intros w Hw; apply String.eqb_neq; intros ->; contradiction).
    destruct (_ || _); repeat rewrite ?obj_get_copy_option, ?obj_get_obj_put;
      rewrite ?(Hne "acr_values"), ?(Hne "hd"), ?(Hne "access_type"), ?(Hne "login_hint"),
        ?(Hne "display"), ?(Hne "prompt"), ?(Hne "response_type"), ?(Hne "response_mode"),
        ?(Hne "redirect_uri") by (simpl; tauto);
      reflexivity.
  - destruct (_ || _); repeat rewrite ?obj_get_copy_option, ?obj_get_obj_put; reflexivity.
  - rewrite !HP by (simpl; intuition discriminate).
    eexists. split; [exact HP|]. split; [exact HR|]. reflexivity.
Qed.

Lemma truthy_str_nonempty sc : sc <> "" -> truthy (Some (JStr sc)) = true.
Proof. intros H. simpl. apply String.eqb_neq in H. rewrite H. reflexivity. Qed.

(** X1: [mergeRequestOptions] sets [scope] to ["openid"], then the separator,
    then the requested scope (from the options, else from the settings):
    a string as it is, an array joined with the separator; with no scope
    (or an empty array) it is ["openid"] alone; with no [scopeSeparator]
    configured the word ["undefined"] stands between the two. *)
Theorem mergeRequestOptions_scope (rt : runtime) (ul : url_lib) (req : http_request)
    (options config : list (string * jvalue)) (cb : option jvalue) :
  resolve_callback rt ul req
    (js_or (obj_get options "callbackURL") (obj_get config "callbackURL")) = Ok cb ->
  truthy (obj_get options "openidRealm") = false ->
  let scope := js_or (obj_get options "scope") (obj_get config "scope") in
  let out := obj_get (snd (mergeRequestOptions rt ul req options config)) "scope" in
  fst (mergeRequestOptions rt ul req options config) = Ok tt /\
  (truthy scope = false -> out = Some (JStr "openid")) /\
  (forall sc sep, scope = Some (JStr sc) -> sc <> "" ->
     obj_get config "scopeSeparator" = Some (JStr sep) ->
     out = Some (JStr ("openid" ++ sep ++ sc))) /\
  (forall sc, scope = Some (JStr sc) -> sc <> "" ->
     obj_get config "scopeSeparator" = None ->
     out = Some (JStr ("openid" ++ "undefined" ++ sc))) /\
  (forall xs sep, scope = Some (JArr xs) ->
     obj_get config "scopeSeparator" = Some (JStr sep) ->
     out = Some (JStr (if String.eqb (js_join rt (Some (JStr sep)) xs) "" then "openid"
                       else "openid" ++ sep ++ js_join rt (Some (JStr sep)) xs))).
Proof.
  intros Hcb Hr scope out.
  destruct (merge_ok_shape rt ul req options config cb Hcb Hr) as [P [_ [_ Heq]]].
  unfold out. rewrite Heq. cbv zeta. cbn [fst snd]. fold scope.
  split; [reflexivity|]. split; [|split; [|split]].
  - intros Hs. destruct scope as [[]|] eqn:E; cbn [truthy] in Hs |- *; try discriminate;
      rewrite ?Hs; rewrite obj_get_obj_set; reflexivity.
  - intros sc sep Hs Hne Hsep. rewrite Hs, (truthy_str_nonempty sc Hne), Hsep.
    rewrite obj_get_obj_set. reflexivity.
  - intros sc Hs Hne Hsep. rewrite Hs, (truthy_str_nonempty sc Hne), Hsep.
    rewrite obj_get_obj_set. reflexivity.
  - intros xs sep Hs Hsep. rewrite Hs, Hsep. cbn [truthy].
    destruct (String.eqb (js_join rt (Some (JStr sep)) xs) "");
      cbn [negb]; rewrite obj_get_obj_set; reflexivity.
Qed.

Lemma obj_get_set_other kvs k v k' :
  String.eqb k' k = false -> obj_get (obj_set kvs k v) k' = obj_get kvs k'.
Proof. intros H. rewrite obj_get_obj_set, H. reflexivity. Qed.

Lemma merge_ok_redirect rt ul req options config cb :
  resolve_callback rt ul req
    (js_or (obj_get options "callbackURL") (obj_get config "callbackURL")) = Ok cb ->
  truthy (obj_get options "openidRealm") = false ->
  fst (mergeRequestOptions rt ul req options config) = Ok tt /\
  obj_get (snd (mergeRequestOptions rt ul req options config)) "redirect_uri" = cb.
Proof.
  intros Hcb Hr.
  destruct (merge_ok_shape rt ul req options config cb Hcb Hr) as [P [_ [HR Heq]]].
  rewrite Heq. cbv zeta. cbn [fst snd]. split; [reflexivity|].
  match goal with
  | |- context [if ?b then obj_set _ "scope" _ else _] => destruct b
  end; rewrite obj_get_set_other by reflexivity; exact HR.
Qed.

(** X2: [redirect_uri] becomes the callback URL of the options, else of the
    settings: an absolute one as it is, a relative one resolved against the
    URL of the request.  A falsy callback URL is written as it is, so a
    configured [redirect_uri] is lost (erased when there is no callback URL
    at all); a callback URL that is truthy but not a string makes
    [url.parse] throw a [TypeError] before anything is written. *)
Theorem mergeRequestOptions_callbackURL (rt : runtime) (ul : url_lib) (req : http_request)
    (options config : list (string * jvalue)) :
  truthy (obj_get options "openidRealm") = false ->
  let cbu := js_or (obj_get options "callbackURL") (obj_get config "callbackURL") in
  let res := mergeRequestOptions rt ul req options config in
  (truthy cbu = false -> fst res = Ok tt /\ obj_get (snd res) "redirect_uri" = cbu) /\
  (forall u, cbu = Some (JStr u) -> u <> "" -> truthy_str (url_parse_protocol ul u) = true ->
     fst res = Ok tt /\ obj_get (snd res) "redirect_uri" = Some (JStr u)) /\
  (forall u, cbu = Some (JStr u) -> u <> "" -> truthy_str (url_parse_protocol ul u) = false ->
     fst res = Ok tt /\
     obj_get (snd res) "redirect_uri" = Some (JStr (url_resolve ul (originalURL rt req) u))) /\
  (truthy cbu = true -> (forall u, cbu <> Some (JStr u)) -> res = (Throw TypeError, config)).
Proof.
  intros Hr cbu res. unfold res.
  split; [|split; [|split]].
  - intros Hf. apply merge_ok_redirect; [|exact Hr].
    unfold resolve_callback. fold cbu. rewrite Hf. reflexivity.
  - intros u Hu Hne Hp. apply merge_ok_redirect; [|exact Hr].
    unfold resolve_callback. fold cbu. rewrite Hu, (truthy_str_nonempty u Hne), Hp.
    reflexivity.
  - intros u Hu Hne Hp. apply merge_ok_redirect; [|exact Hr].
    unfold resolve_callback. fold cbu. rewrite Hu, (truthy_str_nonempty u Hne), Hp.
    reflexivity.
  - intros Ht Hns. unfold mergeRequestOptions. cbv zeta. fold cbu.
    unfold resolve_callback. rewrite Ht. clearbody cbu.
    destruct cbu as [[]|]; try reflexivity; try discriminate.
    exfalso. eapply Hns. reflexivity.
Qed.

(** X3: The settings object is the one [mergeRequestOptions] writes to, so a
    second call reads the scope the first one wrote: two requests with no
    options turn a configured scope [sc] into ["openid" + sep + sc] and
    then ["openid" + sep + "openid" + sep + sc]. *)
Theorem mergeRequestOptions_scope_accumulates (rt : runtime) (ul : url_lib)
    (req : http_request) (config : list (string * jvalue)) (cb : option jvalue)
    (sc sep : string) :
  resolve_callback rt ul req (obj_get config "callbackURL") = Ok cb ->
  obj_get config "scope" = Some (JStr sc) -> sc <> "" ->
  obj_get config "scopeSeparator" = Some (JStr sep) ->
  let once := snd (mergeRequestOptions rt ul req [] config) in
  obj_get once "scope" = Some (JStr ("openid" ++ sep ++ sc)) /\
  obj_get (snd (mergeRequestOptions rt ul req [] once)) "scope"
    = Some (JStr ("openid" ++ sep ++ "openid" ++ sep ++ sc)).
Proof.
  intros Hcb Hs Hne Hsep once.
  destruct (merge_ok_shape rt ul req [] config cb Hcb eq_refl) as [P [HP [_ Heq]]].
  assert (Honce : once = obj_set P "scope" (JStr ("openid" ++ sep ++ sc))).
  { unfold once. rewrite Heq. cbv zeta. cbn [fst snd].
    change (js_or (obj_get [] "scope") (obj_get config "scope")) with (obj_get config "scope").
    rewrite Hs. cbn beta iota. rewrite (truthy_str_nonempty sc Hne), Hsep. reflexivity. }
  assert (Hcb1 : resolve_callback rt ul req
                   (js_or (obj_get [] "callbackURL") (obj_get once "callbackURL")) = Ok cb).
  { change (js_or (obj_get [] "callbackURL") (obj_get once "callbackURL"))
      with (obj_get once "callbackURL").
    rewrite Honce, obj_get_set_other, HP by (reflexivity || (simpl; intuition discriminate)).
    exact Hcb. }
  assert (Hsep1 : obj_get once "scopeSeparator" = Some (JStr sep)).
  { rewrite Honce, obj_get_set_other, HP by (reflexivity || (simpl; intuition discriminate)).
    exact Hsep. }
  assert (Hs1 : obj_get once "scope" = Some (JStr ("openid" ++ sep ++ sc)))
    by (rewrite Honce; apply obj_get_obj_set).
  split; [exact Hs1|].
  destruct (merge_ok_shape rt ul req [] once cb Hcb1 eq_refl) as [P2 [_ [_ Heq2]]].
  rewrite Heq2. cbv zeta. cbn [snd].
  change (js_or (obj_get [] "scope") (obj_get once "scope")) with (obj_get once "scope").
  rewrite Hs1, Hsep1. cbn beta iota.
  change (truthy (Some (JStr ("openid" ++ sep ++ sc)))) with true.
  cbv beta iota. rewrite obj_get_obj_set. reflexivity.
Qed.

(** X4: A truthy [openidRealm] is stored as [params.openid.realm]: into the
    configured [openid] object, and when the settings have none, as a
    [TypeError] that leaves the settings with what was written before it
    ([redirect_uri] among them) and with the scope not yet rewritten. *)
Theorem mergeRequestOptions_openidRealm (rt : runtime) (ul : url_lib) (req : http_request)
    (options config : list (string * jvalue)) (cb : option jvalue) (r : jvalue) :
  resolve_callback rt ul req
    (js_or (obj_get options "callbackURL") (obj_get config "callbackURL")) = Ok cb ->
  obj_get options "openidRealm" = Some r -> truthy (Some r) = true ->
  let res := mergeRequestOptions rt ul req options config in
  (obj_get config "openid" = None ->
     fst res = Throw TypeError /\ obj_get (snd res) "redirect_uri" = cb /\
     obj_get (snd res) "scope" = obj_get config "scope") /\
  (forall o, obj_get config "openid" = Some (JObj o) ->
     fst res = Ok tt /\ obj_get (snd res) "openid" = Some (JObj (obj_set o "realm" r))).
Proof.
  intros Hcb Hrealm Ht res. unfold res, mergeRequestOptions. rewrite Hcb. cbv zeta.
  rewrite Hrealm, Ht. cbv beta iota.
  match goal with
  | |- context [set_openid_realm ?P _] =>
      assert (HP : forall k, ~ In k merge_written -> obj_get P k = obj_get config k);
      [| assert (HR : obj_get P "redirect_uri" = cb) ]
  end.
  - intros k Hk.
    assert (Hne : forall w, In w merge_written -> String.eqb k w = false)
      by (intros w Hw; apply String.eqb_neq; intros ->; contradiction).
    destruct (_ || _); repeat rewrite ?obj_get_copy_option, ?obj_get_obj_put;
      rewrite ?(Hne "acr_values"), ?(Hne "hd"), ?(Hne "access_type"), ?(Hne "login_hint"),
        ?(Hne "display"), ?(Hne "prompt"), ?(Hne "response_type"), ?(Hne "response_mode"),
        ?(Hne "redirect_uri") by (simpl; tauto);
      reflexivity.
  - destruct (_ || _); repeat rewrite ?obj_get_copy_option, ?obj_get_obj_put; reflexivity.
  - unfold set_openid_realm. rewrite (HP "openid") by (simpl; intuition discriminate).
    split.
    + intros Hopen. rewrite Hopen. cbn [fst snd].
      split; [reflexivity|]. split; [exact HR|]. apply HP. simpl. intuition discriminate.
    + intros o Hopen. rewrite Hopen. cbn [fst snd]. split; [reflexivity|].
      match goal with
      | |- context [if ?b then obj_set _ "scope" _ else _] => destruct b
      end;
      rewrite obj_get_set_other, !obj_get_copy_option by reflexivity;
      cbn [andb]; rewrite obj_get_obj_set; reflexivity.
Qed.

(** ** Metadata, endpoints and the authorization request *)

Lemma getp_truthy v k : truthy (Some v) = true -> getp (Some v) k = mret (prop v k).
Proof. destruct v; try reflexivity. discriminate. Qed.

Lemma getp_not_null v k : v <> JNull -> getp (Some v) k = mret (prop v k).
Proof. destruct v; try reflexivity. congruence. Qed.

Lemma truthy_str_some s : truthy_str (Some s) = truthy (Some (JStr s)).
Proof. reflexivity. Qed.

Lemma fetch_metadata_ok rt cfg s md s1 :
  fetch_metadata rt cfg s = (Ok md, s1) ->
  s1 = mkState (store s) (Some md) (jwks s) (rand_count s) (clock_ms s).
Proof.
  unfold fetch_metadata, write_metadata, getJson, error, utility_error. unfold_m.
  destruct (authority cfg) as [au|]; [|discriminate].
  destruct (truthy_str (Some au)); [|discriminate].
  destruct (fetch_json rt au None); [discriminate|].
  cbn. intros H. injection H as <- <-. reflexivity.
Qed.

Lemma loadMetadataAsync_cached rt cfg s md :
  metadata s = Some md -> truthy (Some md) = true -> loadMetadataAsync rt cfg s = (Ok md, s).
Proof.
  intros E Ht. unfold loadMetadataAsync, read_metadata. unfold_m. rewrite E.
  cbv beta iota. rewrite Ht. reflexivity.
Qed.

Lemma loadMetadataAsync_fetches rt cfg s :
  truthy (metadata s) = false -> loadMetadataAsync rt cfg s = fetch_metadata rt cfg s.
Proof.
  intros Ht. unfold loadMetadataAsync, read_metadata. unfold_m.
  destruct (metadata s) as [m0|]; cbv beta iota; [rewrite Ht|]; reflexivity.
Qed.

(** X5: A successful [loadMetadataAsync] leaves the document it returns cached
    on the settings and changes nothing else; once a truthy document is
    cached, every later load returns it and never fetches (whatever a
    fetch would return). *)
Theorem loadMetadataAsync_caches (rt : runtime) (cfg : settings) (s s1 : state) (md : jvalue) :
  loadMetadataAsync rt cfg s = (Ok md, s1) ->
  s1 = mkState (store s) (Some md) (jwks s) (rand_count s) (clock_ms s) /\
  (truthy (Some md) = true -> forall rt2 : runtime, loadMetadataAsync rt2 cfg s1 = (Ok md, s1)).
Proof.
  intros H.
  assert (Hs1 : s1 = mkState (store s) (Some md) (jwks s) (rand_count s) (clock_ms s)).
  { destruct (truthy (metadata s)) eqn:Ht.
    - destruct (metadata s) as [m0|] eqn:E; [|discriminate].
      rewrite (loadMetadataAsync_cached rt cfg s m0 E Ht) in H. injection H as <- <-.
      destruct s; cbn in *; subst; reflexivity.
    - rewrite (loadMetadataAsync_fetches rt cfg s Ht) in H. exact (fetch_metadata_ok _ _ _ _ _ H). }
  split; [exact Hs1|]. intros Ht rt2.
  apply loadMetadataAsync_cached; [rewrite Hs1; reflexivity | exact Ht].
Qed.

(** X6: With no truthy document cached, [loadMetadataAsync] fails with "No
    authority configured" when the authority is missing or empty, and with
    "Failed to load metadata (...)" carrying the fetch error's message when
    the fetch fails; in both cases nothing is cached. *)
Theorem loadMetadataAsync_failures (rt : runtime) (cfg : settings) (s : state) :
  truthy (metadata s) = false ->
  (truthy_str (authority cfg) = false ->
     loadMetadataAsync rt cfg s = (Throw (Error "No authority configured"), s)) /\
  (forall au msg, authority cfg = Some au -> au <> "" -> fetch_json rt au None = inl msg ->
     loadMetadataAsync rt cfg s
     = (Throw (Error ("Failed to load metadata (" ++ msg ++ ")")), s)).
Proof.
  intros Ht. rewrite (loadMetadataAsync_fetches rt cfg s Ht).
  unfold fetch_metadata, getJson, error, utility_error. unfold_m. split.
  - intros Ha. destruct (authority cfg) as [au|]; [rewrite Ha|]; reflexivity.
  - intros au msg Ha Hne Hf. rewrite Ha, truthy_str_some, (truthy_str_nonempty au Hne), Hf.
    reflexivity.
Qed.

(** X7: [loadAuthorizationEndpoint] returns a configured endpoint at once,
    without reading the metadata, and fails with "No authorization_endpoint
    configured" when neither an endpoint nor an authority is configured.
    Otherwise it takes [authorization_endpoint] from the metadata, and every
    failure on that path (a metadata load failure with its message, or a
    document without the endpoint) reaches the caller as a [TypeError]:
    the handler [error(error)] calls the caught error object. *)
Theorem loadAuthorizationEndpoint_outcomes (rt : runtime) (cfg : settings) (s : state) :
  (forall ep, authorization_endpoint cfg = Some ep -> ep <> "" ->
     loadAuthorizationEndpoint rt cfg s = (Ok (JStr ep), s)) /\
  (truthy_str (authorization_endpoint cfg) = false -> truthy_str (authority cfg) = false ->
     loadAuthorizationEndpoint rt cfg s
     = (Throw (Error "No authorization_endpoint configured"), s)) /\
  (truthy_str (authorization_endpoint cfg) = false -> truthy_str (authority cfg) = true ->
     (forall e s1, loadMetadataAsync rt cfg s = (Throw e, s1) ->
        loadAuthorizationEndpoint rt cfg s = (Throw TypeError, s1)) /\
     (forall md s1, loadMetadataAsync rt cfg s = (Ok md, s1) ->
        truthy (Some md) = false \/ truthy (prop md "authorization_endpoint") = false ->
        loadAuthorizationEndpoint rt cfg s = (Throw TypeError, s1)) /\
     (forall md a s1, loadMetadataAsync rt cfg s = (Ok md, s1) -> truthy (Some md) = true ->
        prop md "authorization_endpoint" = Some a -> truthy (Some a) = true ->
        loadAuthorizationEndpoint rt cfg s = (Ok a, s1))).
Proof.
  unfold loadAuthorizationEndpoint. split; [|split].
  - intros ep He Hne. rewrite He, truthy_str_some, (truthy_str_nonempty ep Hne). reflexivity.
  - intros He Ha. rewrite He, Ha. reflexivity.
  - intros He Ha. rewrite He, Ha. cbn [negb]. unfold catch, then2. split; [|split].
    + intros e s1 Hm. rewrite (bind_Throw _ _ _ _ _ Hm). reflexivity.
    + intros md s1 Hm Hf. rewrite (bind_Ok _ _ _ _ _ Hm).
      destruct (truthy (Some md)) eqn:Ht.
      * destruct Hf as [Hf|Hf]; [discriminate|].
        rewrite (getp_truthy md _ Ht). unfold_m.
        destruct (prop md "authorization_endpoint") as [a|]; [|reflexivity].
        rewrite Hf, andb_false_r. reflexivity.
      * unfold_m. reflexivity.
    + intros md a s1 Hm Ht He' Ha'. rewrite (bind_Ok _ _ _ _ _ Hm). cbv beta. rewrite Ht.
      rewrite (getp_truthy md _ Ht). unfold_m. rewrite He', ?Ht, Ha'. reflexivity.
Qed.

Lemma token_request_store rt cfg ep s1 rs url s' :
  token_request rt cfg ep s1 = (Ok (rs, url), s') ->
  store s' = <[store_key cfg := JSON_stringify rt rs]> (store s1) /\
  prop rs "state" = Some (JStr (random_string rt (rand_count s1))) /\
  prop rs "oidc" = Some (JBool (isOidc cfg)) /\
  prop rs "oauth" = Some (JBool (isOauth cfg)) /\
  prop rs "nonce" = (if isOidc cfg && truthy_str (Some (random_string rt (S (rand_count s1))))
                     then Some (JStr (random_string rt (S (rand_count s1)))) else None).
Proof.
  intros H. unfold token_request, rand, store_set in H. unfold_m.
  destruct (isOidc cfg); cbv beta iota zeta in H; injection H as <- _ <-; cbn [store];
    [destruct (truthy_str (Some (random_string rt (S (rand_count s1))))) eqn:Tn|];
    cbn [andb]; rewrite ?Tn; repeat split; reflexivity.
Qed.

Lemma createTokenRequestAsync_request_state_core rt cfg s s' rs url :
  createTokenRequestAsync rt cfg s = (Ok (rs, url), s') ->
  store s' = <[store_key cfg := JSON_stringify rt rs]> (store s) /\
  prop rs "state" = Some (JStr (random_string rt (rand_count s))) /\
  prop rs "oidc" = Some (JBool (isOidc cfg)) /\
  prop rs "oauth" = Some (JBool (isOauth cfg)) /\
  prop rs "nonce" = (if isOidc cfg && truthy_str (Some (random_string rt (S (rand_count s))))
                     then Some (JStr (random_string rt (S (rand_count s)))) else None).
Proof.
  intros H.
  assert (Hk : rand_count (snd (loadAuthorizationEndpoint rt cfg s)) = rand_count s)
    by (apply keeps_loadAuthorizationEndpoint; auto using rand_count_write_metadata, rand_count_write_jwks).
  assert (Hst : store (snd (loadAuthorizationEndpoint rt cfg s)) = store s)
    by (apply keeps_loadAuthorizationEndpoint; auto using store_write_metadata, store_write_jwks).
  unfold createTokenRequestAsync, then2 in H. unfold_m.
  destruct (_ && _); cbv beta in H; revert H;
    destruct (loadAuthorizationEndpoint rt cfg s) as [[ep|e] s1]; simpl in Hk, Hst;
    try discriminate; intros H; rewrite <- Hk, <- Hst;
    apply (token_request_store rt cfg ep s1 rs url s' H).
Qed.

(** X8: A successful [createTokenRequestAsync] stores [JSON.stringify] of the
    request state it returns under the configured key, and changes no other
    entry; that request state carries the flow flags [oidc] and [oauth],
    the first random value drawn as [state], and the second as [nonce]
    exactly when the flow is OpenID Connect and that value is not empty. *)
Theorem createTokenRequestAsync_request_state (rt : runtime) (cfg : settings) (s s' : state)
    (rs : jvalue) (url : string) :
  createTokenRequestAsync rt cfg s = (Ok (rs, url), s') ->
  store s' = <[store_key cfg := JSON_stringify rt rs]> (store s) /\
  prop rs "state" = Some (JStr (random_string rt (rand_count s))) /\
  prop rs "oidc" = Some (JBool (isOidc cfg)) /\
  prop rs "oauth" = Some (JBool (isOauth cfg)) /\
  prop rs "nonce" = (if isOidc cfg && truthy_str (Some (random_string rt (S (rand_count s))))
                     then Some (JStr (random_string rt (S (rand_count s)))) else None).
Proof. exact (createTokenRequestAsync_request_state_core rt cfg s s' rs url). Qed.

(** X9: A failed [createTokenRequestAsync] draws no random value and writes
    nothing to the store.  Its failure is "No authorization_endpoint
    configured" when neither an endpoint nor an authority is configured,
    and a [TypeError] in every other case: the rejection handler
    [error(error)] calls the error object. *)
Theorem createTokenRequestAsync_failure (rt : runtime) (cfg : settings) (s s' : state)
    (e : js_error) :
  createTokenRequestAsync rt cfg s = (Throw e, s') ->
  store s' = store s /\ rand_count s' = rand_count s /\
  e = (if negb (truthy_str (authorization_endpoint cfg)) && negb (truthy_str (authority cfg))
       then Error "No authorization_endpoint configured" else TypeError).
Proof.
  intros H.
  assert (Hk : rand_count (snd (loadAuthorizationEndpoint rt cfg s)) = rand_count s)
    by (apply keeps_loadAuthorizationEndpoint; auto using rand_count_write_metadata, rand_count_write_jwks).
  assert (Hst : store (snd (loadAuthorizationEndpoint rt cfg s)) = store s)
    by (apply keeps_loadAuthorizationEndpoint; auto using store_write_metadata, store_write_jwks).
  unfold createTokenRequestAsync, then2 in H.
  destruct (negb (truthy_str (authorization_endpoint cfg)) && negb (truthy_str (authority cfg)))
    eqn:Hc.
  - apply andb_true_iff in Hc as [Hc1 Hc2]. apply negb_true_iff in Hc1, Hc2.
    unfold loadAuthorizationEndpoint in H. rewrite Hc1, Hc2 in H.
    cbv in H. injection H as <- <-. auto.
  - unfold_m. revert H. destruct (loadAuthorizationEndpoint rt cfg s) as [[ep|e0] s1];
      simpl in Hk, Hst.
    + intros H. unfold token_request, rand, store_set in H. unfold_m.
      destruct (isOidc cfg); cbv beta iota zeta in H; discriminate.
    + intros H. injection H as <- <-. auto.
Qed.

(** X10: [createLogoutRequestAsync] fails with "No end_session_endpoint in
    metadata" when the metadata has no (truthy) [end_session_endpoint];
    otherwise it returns that endpoint, with [post_logout_redirect_uri] and
    [id_token_hint] appended (both percent-encoded) only when both are
    given: an id-token hint without a post-logout redirect URI is dropped. *)
Theorem createLogoutRequestAsync_url (rt : runtime) (cfg : settings) (s s1 : state)
    (md : jvalue) (post_logout_redirect_uri id_token_hint : option string) :
  loadMetadataAsync rt cfg s = (Ok md, s1) -> md <> JNull ->
  (truthy (prop md "end_session_endpoint") = false ->
     createLogoutRequestAsync rt cfg post_logout_redirect_uri id_token_hint s
     = (Throw (Error "No end_session_endpoint in metadata"), s1)) /\
  (forall url, prop md "end_session_endpoint" = Some url -> truthy (Some url) = true ->
     createLogoutRequestAsync rt cfg post_logout_redirect_uri id_token_hint s
     = (Ok (if truthy_str id_token_hint && truthy_str post_logout_redirect_uri
            then JStr (js_to_string rt url ++ "?post_logout_redirect_uri="
                       ++ encodeURIComponent (default "" post_logout_redirect_uri)
                       ++ "&id_token_hint=" ++ encodeURIComponent (default "" id_token_hint))
            else url), s1)).
Proof.
  intros Hm Hn. unfold createLogoutRequestAsync. rewrite (bind_Ok _ _ _ _ _ Hm).
  rewrite (getp_not_null md _ Hn). unfold_m. split.
  - intros Hf. destruct (prop md "end_session_endpoint") as [u|]; [rewrite Hf|]; reflexivity.
  - intros url He Ht. rewrite He, Ht. destruct (_ && _); reflexivity.
Qed.

(** X11: [loadUserProfile] passes on a metadata failure as it is, fails with
    "Metadata does not contain userinfo_endpoint" when the document has no
    (truthy) [userinfo_endpoint], and otherwise is the fetch of that
    endpoint with the access token as bearer credential. *)
Theorem loadUserProfile_outcomes (rt : runtime) (cfg : settings) (tok : string) (s : state) :
  (forall e s1, loadMetadataAsync rt cfg s = (Throw e, s1) ->
     loadUserProfile rt cfg tok s = (Throw e, s1)) /\
  (forall md s1, loadMetadataAsync rt cfg s = (Ok md, s1) -> md <> JNull ->
     (truthy (prop md "userinfo_endpoint") = false ->
        loadUserProfile rt cfg tok s
        = (Throw (Error "Metadata does not contain userinfo_endpoint"), s1)) /\
     (forall u, prop md "userinfo_endpoint" = Some u -> truthy (Some u) = true ->
        loadUserProfile rt cfg tok s = getJson rt (js_to_string rt u) (Some tok) s1)).
Proof.
  unfold loadUserProfile. split.
  - intros e s1 Hm. exact (bind_Throw _ _ _ _ _ Hm).
  - intros md s1 Hm Hn. rewrite (bind_Ok _ _ _ _ _ Hm), (getp_not_null md _ Hn).
    unfold_m. split.
    + intros Hf. destruct (prop md "userinfo_endpoint") as [u|]; [rewrite Hf|]; reflexivity.
    + intros u He Ht. rewrite He, Ht. reflexivity.
Qed.

(** ** The response processor and the identity-token checks *)

(** X12: An [error] reported by the provider in the callback is the failure of
    [processResponseAsync], checked before the state comparison: it is
    reported whatever [result.state] is. *)
Theorem processResponseAsync_provider_error (rt : runtime) (cfg : settings)
    (r : callback_result) (requestState : option string) (s s1 : state)
    (rs : string) (v : jvalue) (e : string) :
  resolve_request_state cfg requestState s = (Ok (Some rs), s1) ->
  truthy_str (Some rs) = true ->
  JSON_parse rt rs = Some v ->
  truthy (prop v "state") = true ->
  result_error r = Some e -> e <> "" ->
  processResponseAsync rt cfg (Some r) requestState s = (Throw (Error e), s1).
Proof.
  intros Hres Htr Hparse Hst Herr Hne.
  destruct (truthy_prop_state_obj v Hst) as [kvs ->].
  unfold processResponseAsync. rewrite (bind_Ok _ _ _ _ _ Hres).
  unfold process_request_state. rewrite Htr. change (default "" (Some rs)) with rs.
  unfold json_parse. rewrite Hparse.
  simpl in Hst |- *. unfold_m. simpl. rewrite Hst. simpl.
  rewrite Herr, truthy_str_some, (truthy_str_nonempty e Hne). reflexivity.
Qed.

Lemma process_request_state_oauth_only rt cfg r rs s v :
  truthy_str (Some rs) = true ->
  JSON_parse rt rs = Some v ->
  truthy (prop v "state") = true ->
  truthy (prop v "oidc") = false ->
  truthy (prop v "oauth") = true ->
  truthy_str (result_error r) = false ->
  strict_eq (JStr <$> result_state r) (prop v "state") = true ->
  truthy_str (result_access_token r) = true ->
  truthy_str (result_expires_in r) = true ->
  process_request_state rt cfg (Some r) (Some rs) s =
  (if truthy_str (result_token_type r)
      && String.eqb (to_lower (default "" (result_token_type r))) "bearer"
   then Ok (mkSession None (result_id_token r) (result_access_token r)
              (result_expires_in r) (result_scope r) (result_session_state r))
   else Throw (Error "Invalid token type"), s).
Proof.
  intros Htr Hparse Hst Hoidc Hoauth Herr Heq Hat Hexp.
  destruct (truthy_prop_state_obj v Hst) as [kvs ->].
  unfold process_request_state. rewrite Htr. change (default "" (Some rs)) with rs.
  unfold json_parse. rewrite Hparse.
  unfold verify_tokens, finish, filter_profile.
  simpl in Hst, Hoidc, Hoauth, Heq |- *. unfold_m. simpl. rewrite Hst. simpl.
  rewrite Herr, Heq. simpl. rewrite Hoidc. simpl. rewrite Hoauth. simpl.
  rewrite Hat. simpl.
  destruct (truthy_str (result_token_type r)); simpl; [|reflexivity].
  destruct (String.eqb _ "bearer"); simpl; [|reflexivity].
  rewrite Hexp. simpl. rewrite ?Hoidc. reflexivity.
Qed.

(** X13: In a flow whose request state has a falsy [oidc] and a truthy [oauth],
    a callback with the right state, an access token and an expiry is
    accepted exactly when its [token_type] is ["bearer"] in any letter
    case, and nothing about the access token is verified: the session has
    no profile and carries the callback's tokens, and neither the metadata
    nor the key set is read. *)
Theorem processResponseAsync_oauth_only (rt : runtime) (cfg : settings)
    (r : callback_result) (requestState : option string) (s s1 : state)
    (rs : string) (v : jvalue) :
  resolve_request_state cfg requestState s = (Ok (Some rs), s1) ->
  truthy_str (Some rs) = true ->
  JSON_parse rt rs = Some v ->
  truthy (prop v "state") = true ->
  truthy (prop v "oidc") = false ->
  truthy (prop v "oauth") = true ->
  truthy_str (result_error r) = false ->
  strict_eq (JStr <$> result_state r) (prop v "state") = true ->
  truthy_str (result_access_token r) = true ->
  truthy_str (result_expires_in r) = true ->
  processResponseAsync rt cfg (Some r) requestState s =
  (if truthy_str (result_token_type r)
      && String.eqb (to_lower (default "" (result_token_type r))) "bearer"
   then Ok (mkSession None (result_id_token r) (result_access_token r)
              (result_expires_in r) (result_scope r) (result_session_state r))
   else Throw (Error "Invalid token type"), s1).
Proof.
  intros Hres Htr Hparse Hst Hoidc Hoauth Herr Heq Hat Hexp.
  unfold processResponseAsync. rewrite (bind_Ok _ _ _ _ _ Hres).
  exact (process_request_state_oauth_only rt cfg r rs s1 v
           Htr Hparse Hst Hoidc Hoauth Herr Heq Hat Hexp).
Qed.

(** X14: With a request state passed in explicitly, [processResponseAsync] never
    writes the request-state store: a stored entry stays in place, whatever
    the outcome. *)
Theorem processResponseAsync_explicit_keeps_store (rt : runtime) (cfg : settings)
    (result : option callback_result) (rs : string) (s : state) :
  truthy_str (Some rs) = true ->
  store (snd (processResponseAsync rt cfg result (Some rs) s)) = store s.
Proof.
  intros H. rewrite (processResponseAsync_explicit rt cfg result rs s H).
  apply keeps_process_request_state; auto using store_write_metadata, store_write_jwks.
Qed.

(** X15: The first checks of [validateIdTokenAsync], in their order: the
    signature ("JWT failed to validate"), the payload's JSON (a
    [SyntaxError]), the nonce ("Invalid nonce", before the metadata is
    loaded), then against the metadata the issuer ("Invalid issuer") and
    the audience, the configured [client_id] ("Invalid audience"). *)
Theorem validateIdTokenAsync_early_checks (rt : runtime) (cfg : settings) (tok : string)
    (nonce : option jvalue) (at_ : option string) (s s1 : state) (cert : option jvalue) :
  loadX509SigningKeyAsync rt cfg s = (Ok cert, s1) ->
  (verifyJWSByPemX509Cert rt tok cert = false ->
     validateIdTokenAsync rt cfg tok nonce at_ s = (Throw (Error "JWT failed to validate"), s1)) /\
  (verifyJWSByPemX509Cert rt tok cert = true -> JSON_parse rt (payloadS rt tok) = None ->
     validateIdTokenAsync rt cfg tok nonce at_ s = (Throw SyntaxError, s1)) /\
  (forall c, verifyJWSByPemX509Cert rt tok cert = true ->
     JSON_parse rt (payloadS rt tok) = Some (JObj c) ->
     strict_eq nonce (obj_get c "nonce") = false ->
     validateIdTokenAsync rt cfg tok nonce at_ s = (Throw (Error "Invalid nonce"), s1)) /\
  (forall c md s2, verifyJWSByPemX509Cert rt tok cert = true ->
     JSON_parse rt (payloadS rt tok) = Some (JObj c) ->
     strict_eq nonce (obj_get c "nonce") = true ->
     loadMetadataAsync rt cfg s1 = (Ok md, s2) -> md <> JNull ->
     (strict_eq (obj_get c "iss") (prop md "issuer") = false ->
        validateIdTokenAsync rt cfg tok nonce at_ s = (Throw (Error "Invalid issuer"), s2)) /\
     (strict_eq (obj_get c "iss") (prop md "issuer") = true ->
      strict_eq (obj_get c "aud") (JStr <$> client_id cfg) = false ->
        validateIdTokenAsync rt cfg tok nonce at_ s = (Throw (Error "Invalid audience"), s2))).
Proof.
  intros Hc. split; [|split; [|split]].
  - intros Hv. unfold validateIdTokenAsync. rewrite (bind_Ok _ _ _ _ _ Hc). cbv beta.
    rewrite Hv. reflexivity.
  - intros Hv Hp. unfold validateIdTokenAsync. rewrite (bind_Ok _ _ _ _ _ Hc). cbv beta.
    rewrite Hv. unfold json_parse. rewrite Hp. reflexivity.
  - intros c Hv Hp Hn. unfold validateIdTokenAsync. rewrite (bind_Ok _ _ _ _ _ Hc). cbv beta.
    rewrite Hv. unfold json_parse. rewrite Hp. unfold getp. unfold_m. cbn [prop].
    rewrite Hn. reflexivity.
  - intros c md s2 Hv Hp Hn Hm Hnull.
    rewrite (validateIdTokenAsync_reduces rt cfg tok nonce at_ s s1 s2 cert c md Hc Hv Hp Hn Hm).
    unfold check_id_token_claims. rewrite (getp_not_null md _ Hnull).
    unfold getp. unfold_m. cbn [prop]. split.
    + intros Hi. rewrite Hi. reflexivity.
    + intros Hi Ha. rewrite Hi, Ha. reflexivity.
Qed.

(** ** The constructor *)

Lemma prefix_refl (p : string) : String.prefix p p = true.
Proof.
  induction p as [|a p IH]; [reflexivity|]. simpl.
  destruct (Ascii.ascii_dec a a) as [_|n]; [exact IH | congruence].
Qed.

Lemma index_app_suffix (x p : string) : String.index 0 p (x ++ p) <> None.
Proof.
  induction x as [|a x IH].
  - rewrite str_app_empty. destruct p as [|b p]; [discriminate|].
    cbn [String.index]. rewrite prefix_refl. discriminate.
  - rewrite str_app_cons. cbn [String.index].
    destruct (String.prefix p (String a (x ++ p))); [discriminate|].
    destruct (String.index 0 p (x ++ p)); [discriminate|contradiction].
Qed.

Lemma normalize_authority_idem (a : option string) :
  normalize_authority (normalize_authority a) = normalize_authority a.
Proof.
  destruct a as [au|]; [|reflexivity].
  unfold normalize_authority at 2 3.
  destruct (truthy_str (Some au) && _) eqn:C.
  - cbv zeta.
    match goal with
    | |- normalize_authority (Some (?b ++ well_known)) = _ => generalize b; intros b0
    end.
    unfold normalize_authority.
    destruct (String.index 0 well_known (b0 ++ well_known)) eqn:I.
    + rewrite andb_false_r. reflexivity.
    + exfalso. exact (index_app_suffix b0 well_known I).
  - unfold normalize_authority. rewrite C. reflexivity.
Qed.

Lemma normalize_authority_suffix (a : option string) (au : string) :
  normalize_authority a = Some au -> au <> "" -> String.index 0 well_known au <> None.
Proof.
  intros H Hne. destruct a as [au0|]; [|discriminate].
  unfold normalize_authority in H.
  destruct (truthy_str (Some au0) && _) eqn:C.
  - cbv zeta in H. injection H as <-. apply index_app_suffix.
  - injection H as ->. rewrite truthy_str_some, (truthy_str_nonempty au Hne) in C.
    cbn [andb] in C. destruct (String.index 0 well_known au); discriminate.
Qed.

(** X16: The constructor fills in its defaults once: building a client from the
    settings of a client changes nothing (in particular
    [.well-known/openid-configuration] is never appended twice), and a
    non-empty authority of a client always contains that suffix. *)
Theorem OidcClient_idempotent (server : settings) :
  OidcClient (OidcClient server) = OidcClient server /\
  (forall au, authority (OidcClient server) = Some au -> au <> "" ->
     String.index 0 well_known au <> None).
Proof.
  split.
  - destruct server. unfold OidcClient.
    cbn [request_state_key load_user_profile filter_protocol_claims authority
         authorization_endpoint response_type client_id redirect_uri scope prompt display
         max_age ui_locales id_token_hint login_hint acr_values response_mode].
    f_equal;
      first [ reflexivity
            | apply normalize_authority_idem
            | match goal with
              | |- context [truthy_str ?x] =>
                  destruct (truthy_str x) eqn:E; rewrite ?E; reflexivity
              end
            | match goal with
              | |- context [match ?x with None => _ | Some _ => _ end] =>
                  destruct x; reflexivity
              end ].
  - intros au H Hne. exact (normalize_authority_suffix _ au H Hne).
Qed.

(** ** Composition *)

Lemma getKeyAsync_state jw s : snd (getKeyAsync jw s) = s.
Proof.
  assert (K : keeps (fun x : state => x) (getKeyAsync jw)) by (unfold getKeyAsync; keeps_tac).
  exact (K s).
Qed.

(** X17: When [loadX509SigningKeyAsync] fetches a key set, it caches it on the
    settings before looking at its first key, so the call is [getKeyAsync]
    on the fetched set, from the state with the set cached; [getKeyAsync]
    changes no state, and while the cached set is truthy every later call
    is [getKeyAsync] on it again without fetching: a key set whose first
    key is unusable makes every later call fail the same way. *)
Theorem loadX509SigningKeyAsync_caches_key_set (rt : runtime) (cfg : settings)
    (s s1 : state) (md u jw : jvalue) :
  truthy (jwks s) = false ->
  loadMetadataAsync rt cfg s = (Ok md, s1) -> md <> JNull ->
  prop md "jwks_uri" = Some u -> truthy (Some u) = true ->
  fetch_json rt (js_to_string rt u) None = inr jw ->
  let s2 := snd (write_jwks jw s1) in
  loadX509SigningKeyAsync rt cfg s = getKeyAsync jw s2 /\
  snd (getKeyAsync jw s2) = s2 /\
  (truthy (Some jw) = true -> forall rt2 : runtime,
     loadX509SigningKeyAsync rt2 cfg s2 = getKeyAsync jw s2).
Proof.
  intros Hj Hm Hn Hu Ht Hf s2. split; [|split].
  - unfold loadX509SigningKeyAsync, read_jwks, fetch_signing_key. unfold_m.
    revert Hj. destruct (jwks s) as [j|]; intros Hj; cbv beta iota; [rewrite Hj|];
      rewrite Hm; cbv beta iota; rewrite (getp_not_null md _ Hn); unfold_m;
      rewrite Hu, Ht; unfold getJson; rewrite Hf; reflexivity.
  - apply getKeyAsync_state.
  - intros Htj rt2. unfold loadX509SigningKeyAsync, read_jwks. unfold_m.
    unfold s2, write_jwks. cbn [snd jwks]. rewrite Htj. reflexivity.
Qed.

(** X18: Round trip of the OAuth flow: after a successful
    [createTokenRequestAsync] with a response type holding ["token"] but
    not ["id_token"], and a [JSON.parse] that reads back what
    [JSON.stringify] wrote, a callback carrying the [state] of that
    request, no [error], an access token, a [token_type] equal to
    ["bearer"] up to letter case and an expiry is accepted by
    [processResponseAsync] reading the stored request state; the session
    carries the callback's tokens and no profile, and the stored entry is
    cleared. *)
Theorem createTokenRequestAsync_processResponseAsync_oauth (rt : runtime) (cfg : settings)
    (s s' : state) (rs : jvalue) (url : string) (r : callback_result) :
  createTokenRequestAsync rt cfg s = (Ok (rs, url), s') ->
  JSON_parse rt (JSON_stringify rt rs) = Some rs ->
  JSON_stringify rt rs <> "" ->
  isOidc cfg = false -> isOauth cfg = true ->
  random_string rt (rand_count s) <> "" ->
  result_state r = Some (random_string rt (rand_count s)) ->
  truthy_str (result_error r) = false ->
  truthy_str (result_access_token r) = true ->
  truthy_str (result_token_type r) = true ->
  String.eqb (to_lower (default "" (result_token_type r))) "bearer" = true ->
  truthy_str (result_expires_in r) = true ->
  processResponseAsync rt cfg (Some r) None s'
  = (Ok (mkSession None (result_id_token r) (result_access_token r)
           (result_expires_in r) (result_scope r) (result_session_state r)),
     clear_entry cfg s').
Proof.
  intros H Hjson Hne Hoidc Hoauth Hst Hrs Herr Hat Htt Hb Hexp.
  destruct (createTokenRequestAsync_request_state_core rt cfg s s' rs url H)
    as [Hstore [Hstate [Hio [Hia _]]]].
  rewrite processResponseAsync_reads_store, Hstore, lookup_insert_eq.
  rewrite (process_request_state_oauth_only rt cfg r (JSON_stringify rt rs) (clear_entry cfg s') rs).
  - rewrite Htt, Hb. reflexivity.
  - rewrite truthy_str_some. apply truthy_str_nonempty. exact Hne.
  - exact Hjson.
  - rewrite Hstate. apply truthy_str_nonempty. exact Hst.
  - rewrite Hio, Hoidc. reflexivity.
  - rewrite Hia, Hoauth. reflexivity.
  - exact Herr.
  - rewrite Hrs, Hstate. cbn. apply String.eqb_refl.
  - exact Hat.
  - exact Hexp.
Qed.

(** * Sample runs of the further properties *)

(** A relative callback URL resolved against the request, and the scope
    ["openid profile"]. *)
Lemma mergeRequestOptions_scope_witness :
  obj_get (snd (mergeRequestOptions demo_rt demo_url_lib demo_req [] demo_merge_config)) "scope"
  = Some (JStr ("openid" ++ " " ++ "profile")).
Proof.
  destruct (mergeRequestOptions_scope demo_rt demo_url_lib demo_req [] demo_merge_config
              (Some (JStr "https://rp.example/login/cb")) ltac:(reflexivity) ltac:(reflexivity))
    as [_ [_ [H _]]].
  exact (H "profile" " " ltac:(reflexivity) ltac:(discriminate) ltac:(reflexivity)).
Defined.

(** An absolute callback URL in the options is kept as it is. *)
Lemma mergeRequestOptions_callbackURL_witness :
  obj_get (snd (mergeRequestOptions demo_rt demo_url_lib demo_req
                  [("callbackURL", JStr "https://app.example/cb")] demo_merge_config))
    "redirect_uri"
  = Some (JStr "https://app.example/cb").
Proof.
  destruct (mergeRequestOptions_callbackURL demo_rt demo_url_lib demo_req
              [("callbackURL", JStr "https://app.example/cb")] demo_merge_config
              ltac:(reflexivity)) as [_ [H _]].
  exact (proj2 (H "https://app.example/cb" ltac:(reflexivity) ltac:(discriminate)
                  ltac:(reflexivity))).
Defined.

(** Two requests on the same settings: ["openid openid profile"]. *)
Lemma mergeRequestOptions_scope_accumulates_witness :
  obj_get (snd (mergeRequestOptions demo_rt demo_url_lib demo_req []
                  (snd (mergeRequestOptions demo_rt demo_url_lib demo_req [] demo_merge_config))))
    "scope"
  = Some (JStr ("openid" ++ " " ++ "openid" ++ " " ++ "profile")).
Proof.
  exact (proj2 (mergeRequestOptions_scope_accumulates demo_rt demo_url_lib demo_req
                  demo_merge_config (Some (JStr "https://rp.example/login/cb")) "profile" " "
                  ltac:(reflexivity) ltac:(reflexivity) ltac:(discriminate) ltac:(reflexivity))).
Defined.

(** An [openidRealm] with no [openid] object in the settings. *)
Lemma mergeRequestOptions_openidRealm_witness :
  fst (mergeRequestOptions demo_rt demo_url_lib demo_req
         [("openidRealm", JStr "https://realm.example")] demo_merge_config) = Throw TypeError.
Proof.
  destruct (mergeRequestOptions_openidRealm demo_rt demo_url_lib demo_req
              [("openidRealm", JStr "https://realm.example")] demo_merge_config
              (Some (JStr "https://rp.example/login/cb")) (JStr "https://realm.example")
              ltac:(reflexivity) ltac:(reflexivity) ltac:(reflexivity)) as [H _].
  exact (proj1 (H ltac:(reflexivity))).
Defined.

(** The metadata fetched once is served from the cache afterwards, also by
    a runtime whose fetch fails. *)
Lemma loadMetadataAsync_caches_witness :
  loadMetadataAsync demo_rt demo_cfg (mkState ∅ (Some (JObj demo_metadata2)) None 0 1200000)
  = (Ok (JObj demo_metadata2), mkState ∅ (Some (JObj demo_metadata2)) None 0 1200000).
Proof.
  exact (proj2 (loadMetadataAsync_caches demo_rt2 demo_cfg demo_empty_state
                  (mkState ∅ (Some (JObj demo_metadata2)) None 0 1200000) (JObj demo_metadata2)
                  ltac:(reflexivity)) ltac:(reflexivity) demo_rt).
Defined.

(** A failing fetch of the metadata. *)
Lemma loadMetadataAsync_failures_witness :
  loadMetadataAsync demo_rt demo_cfg demo_empty_state
  = (Throw (Error ("Failed to load metadata (" ++ "network unavailable" ++ ")")),
     demo_empty_state).
Proof.
  destruct (loadMetadataAsync_failures demo_rt demo_cfg demo_empty_state ltac:(reflexivity))
    as [_ H].
  exact (H "https://op.example/.well-known/openid-configuration" "network unavailable"
           ltac:(reflexivity) ltac:(discriminate) ltac:(reflexivity)).
Defined.

(** The request state of an OAuth request is stored under the default key. *)
Lemma createTokenRequestAsync_request_state_witness :
  store demo_oauth_state1
  = <[store_key demo_oauth_cfg := JSON_stringify demo_rt2 demo_oauth_request_state]>
      (store demo_empty_state).
Proof.
  exact (proj1 (createTokenRequestAsync_request_state demo_rt2 demo_oauth_cfg demo_empty_state
                  demo_oauth_state1 demo_oauth_request_state demo_oauth_url ltac:(reflexivity))).
Defined.

(** With an authority whose metadata cannot be fetched, the failure is a
    [TypeError]. *)
Lemma createTokenRequestAsync_failure_witness :
  TypeError
  = (if negb (truthy_str (authorization_endpoint demo_authority_cfg))
        && negb (truthy_str (authority demo_authority_cfg))
     then Error "No authorization_endpoint configured" else TypeError).
Proof.
  exact (proj2 (proj2 (createTokenRequestAsync_failure demo_rt demo_authority_cfg
                         demo_empty_state demo_empty_state TypeError ltac:(reflexivity)))).
Defined.

(** An id-token hint without a post-logout redirect URI is dropped. *)
Lemma createLogoutRequestAsync_url_witness :
  createLogoutRequestAsync demo_rt demo_cfg None (Some "tok") demo_metadata_state
  = (Ok (JStr "https://op.example/logout"), demo_metadata_state).
Proof.
  destruct (createLogoutRequestAsync_url demo_rt demo_cfg demo_metadata_state demo_metadata_state
              (JObj demo_metadata2) None (Some "tok") ltac:(reflexivity) ltac:(discriminate))
    as [_ H].
  exact (H (JStr "https://op.example/logout") ltac:(reflexivity) ltac:(reflexivity)).
Defined.

(** The provider's error is reported although the state does not match. *)
Lemma processResponseAsync_provider_error_witness :
  processResponseAsync demo_rt demo_cfg (Some demo_error_result) (Some "rs-oidc") demo_state
  = (Throw (Error "access_denied"), demo_state).
Proof.
  exact (processResponseAsync_provider_error demo_rt demo_cfg demo_error_result (Some "rs-oidc")
           demo_state demo_state "rs-oidc" demo_request_state "access_denied"
           ltac:(reflexivity) ltac:(reflexivity) ltac:(reflexivity) ltac:(reflexivity)
           ltac:(reflexivity) ltac:(discriminate)).
Defined.

(** An OAuth callback with [token_type] ["Bearer"] is accepted. *)
Lemma processResponseAsync_oauth_only_witness :
  processResponseAsync demo_rt2 demo_oauth_cfg (Some demo_oauth_result) (Some "rs-oauth")
    demo_empty_state
  = (Ok (mkSession None None (Some "at1") (Some "3600") None None), demo_empty_state).
Proof.
  exact (processResponseAsync_oauth_only demo_rt2 demo_oauth_cfg demo_oauth_result
           (Some "rs-oauth") demo_empty_state demo_empty_state "rs-oauth"
           demo_oauth_request_state
           ltac:(reflexivity) ltac:(reflexivity) ltac:(reflexivity) ltac:(reflexivity)
           ltac:(reflexivity) ltac:(reflexivity) ltac:(reflexivity) ltac:(reflexivity)
           ltac:(reflexivity) ltac:(reflexivity)).
Defined.

(** An explicit request state leaves the stored entry in place. *)
Lemma processResponseAsync_explicit_keeps_store_witness :
  store (snd (processResponseAsync demo_rt demo_cfg (Some (demo_result "abc")) (Some "rs-oidc")
                demo_stored_state))
  = store demo_stored_state.
Proof.
  exact (processResponseAsync_explicit_keeps_store demo_rt demo_cfg (Some (demo_result "abc"))
           "rs-oidc" demo_stored_state ltac:(reflexivity)).
Defined.

(** A nonce that differs from the token's. *)
Lemma validateIdTokenAsync_early_checks_witness :
  validateIdTokenAsync demo_rt demo_cfg "tok-good" (Some (JStr "other")) None demo_state
  = (Throw (Error "Invalid nonce"), demo_state).
Proof.
  destruct (validateIdTokenAsync_early_checks demo_rt demo_cfg "tok-good" (Some (JStr "other"))
              None demo_state demo_state (Some (JStr "CERT")) ltac:(reflexivity))
    as [_ [_ [H _]]].
  exact (H demo_claims ltac:(reflexivity) ltac:(reflexivity) ltac:(reflexivity)).
Defined.

(** A fetched key set whose first key is not RSA is cached; a later call
    fails the same way without fetching, here with a runtime whose fetch
    fails. *)
Lemma loadX509SigningKeyAsync_caches_key_set_witness :
  loadX509SigningKeyAsync demo_rt demo_cfg
    (snd (write_jwks (demo_jwks [demo_ec_key]) demo_metadata_state))
  = (Throw (Error "Signing key not RSA"),
     snd (write_jwks (demo_jwks [demo_ec_key]) demo_metadata_state)).
Proof.
  destruct (loadX509SigningKeyAsync_caches_key_set demo_rt2 demo_cfg demo_metadata_state
              demo_metadata_state (JObj demo_metadata2) (JStr "https://op.example/jwks")
              (demo_jwks [demo_ec_key]) ltac:(reflexivity) ltac:(reflexivity)
              ltac:(discriminate) ltac:(reflexivity) ltac:(reflexivity) ltac:(reflexivity))
    as [_ [_ H]].
  rewrite (H ltac:(reflexivity) demo_rt). reflexivity.
Defined.

(** The OAuth request created on an empty state, answered. *)
Lemma createTokenRequestAsync_processResponseAsync_oauth_witness :
  processResponseAsync demo_rt2 demo_oauth_cfg (Some demo_oauth_result) None demo_oauth_state1
  = (Ok (mkSession None None (Some "at1") (Some "3600") None None),
     clear_entry demo_oauth_cfg demo_oauth_state1).
Proof.
  exact (createTokenRequestAsync_processResponseAsync_oauth demo_rt2 demo_oauth_cfg
           demo_empty_state demo_oauth_state1 demo_oauth_request_state demo_oauth_url
           demo_oauth_result
           ltac:(reflexivity) ltac:(reflexivity) ltac:(discriminate) ltac:(reflexivity)
           ltac:(reflexivity) ltac:(discriminate) ltac:(reflexivity) ltac:(reflexivity)
           ltac:(reflexivity) ltac:(reflexivity) ltac:(reflexivity) ltac:(reflexivity)).
Defined.
